(** * Service-broker credentials: [Builder.Build] of servicebroker/broker/bind.go

    [Build] fills a typed [binding] struct from the [Builder] configuration,
    serialises it with [json.Marshal] and reads the bytes back with
    [json.Unmarshal] into an untyped [interface{}].  The development embeds

    - the parts of Go's [unicode/utf8], [strconv] and [encoding/json] that
      this path runs through (modules [utf8], [strconv], [json]): strings are
      byte strings, runes and ints are [Z], a float64 is a [spec_float] of
      binary64;
    - the builder itself (package [broker], at top level): maps are [gmap]s,
      slices are lists, an index out of range is a [Panic].

    The encoder is the one of Go 1.12 (control characters other than
    \n, \r, \t are written as \u00XX; Marshal escapes HTML characters). *)

From Stdlib Require Import ZArith Ascii String List Lia Decimal DecimalString DecimalPos DecimalFacts.
From Stdlib Require Import Floats.SpecFloat.
From stdpp Require Import base option list gmap strings sorting.

Set Warnings "-register-all,-clear-no-such-hyp".
Local Open Scope Z_scope.
#[local] Arguments String.append !_ _ : simpl nomatch.

(** ** Bytes *)

(** s[i] as a number, and the byte with a given value. *)
Definition byte (c : ascii) : Z := Z.of_N (N_of_ascii c).
Definition chr (b : Z) : ascii := ascii_of_N (Z.to_N b).

Definition dquote : ascii := "034"%char.
Definition backslash : ascii := "092"%char.

(** s[n:] and s[:n] *)
Fixpoint sdrop (n : nat) (s : string) : string :=
  match n, s with
  | S n, String _ s => sdrop n s
  | _, _ => s
  end.

Fixpoint stake (n : nat) (s : string) : string :=
  match n, s with
  | S n, String c s => String c (stake n s)
  | _, _ => ""
  end.

(** ** unicode/utf8 *)

Module utf8.

Definition RuneError : Z := 0xFFFD.
Definition RuneSelf : Z := 0x80.
Definition MaxRune : Z := 0x10FFFF.
Definition surrogateMin : Z := 0xD800.
Definition surrogateMax : Z := 0xDFFF.

Definition maskx : Z := 0x3F.
Definition mask2 : Z := 0x1F.
Definition mask3 : Z := 0x0F.
Definition mask4 : Z := 0x07.

Definition locb : Z := 0x80.
Definition hicb : Z := 0xBF.

Record acceptRange := { lo : Z; hi : Z }.

(** The table [first]: what the leading byte says about the sequence.
    [as_] is an ASCII byte, [xx] an invalid leading byte, [lead sz r] a
    leading byte of a sequence of [sz] bytes whose second byte lies in [r]
    (the entries s1 .. s7 with their acceptRanges). *)
Inductive firstInfo := as_ | xx | lead (sz : nat) (accept : acceptRange).

Definition first (b : Z) : firstInfo :=
  if b <? 0x80 then as_
  else if b <? 0xC2 then xx
  else if b <? 0xE0 then lead 2 {| lo := locb; hi := hicb |}
  else if b =? 0xE0 then lead 3 {| lo := 0xA0; hi := hicb |}
  else if b <? 0xED then lead 3 {| lo := locb; hi := hicb |}
  else if b =? 0xED then lead 3 {| lo := locb; hi := 0x9F |}
  else if b <? 0xF0 then lead 3 {| lo := locb; hi := hicb |}
  else if b =? 0xF0 then lead 4 {| lo := 0x90; hi := hicb |}
  else if b <? 0xF4 then lead 4 {| lo := locb; hi := hicb |}
  else if b =? 0xF4 then lead 4 {| lo := locb; hi := 0x8F |}
  else xx.

(** DecodeRuneInString: the first rune of [s] and its width in bytes;
    (RuneError, 1) for an encoding that is not valid, (RuneError, 0) for
    the empty string.  A sequence cut short by the end of the string runs
    into one of the empty-tail cases below. *)
Definition DecodeRuneInString (s : string) : Z * nat :=
  match s with
  | EmptyString => (RuneError, 0%nat)
  | String c0 t0 =>
    let s0 := byte c0 in
    match first s0 with
    | as_ => (s0, 1%nat)
    | xx => (RuneError, 1%nat)
    | lead sz accept =>
      match t0 with
      | EmptyString => (RuneError, 1%nat)
      | String c1 t1 =>
        let s1 := byte c1 in
        if (s1 <? lo accept) || (hi accept <? s1) then (RuneError, 1%nat)
        else if (sz <=? 2)%nat then
          (Z.lor (Z.shiftl (Z.land s0 mask2) 6) (Z.land s1 maskx), 2%nat)
        else
          match t1 with
          | EmptyString => (RuneError, 1%nat)
          | String c2 t2 =>
            let s2 := byte c2 in
            if (s2 <? locb) || (hicb <? s2) then (RuneError, 1%nat)
            else if (sz <=? 3)%nat then
              (Z.lor (Z.lor (Z.shiftl (Z.land s0 mask3) 12)
                            (Z.shiftl (Z.land s1 maskx) 6))
                     (Z.land s2 maskx), 3%nat)
            else
              match t2 with
              | EmptyString => (RuneError, 1%nat)
              | String c3 t3 =>
                let s3 := byte c3 in
                if (s3 <? locb) || (hicb <? s3) then (RuneError, 1%nat)
                else
                  (Z.lor (Z.lor (Z.lor (Z.shiftl (Z.land s0 mask4) 18)
                                       (Z.shiftl (Z.land s1 maskx) 12))
                                (Z.shiftl (Z.land s2 maskx) 6))
                         (Z.land s3 maskx), 4%nat)
              end
          end
      end
    end
  end.

(** EncodeRune: the UTF-8 encoding of [r]; a surrogate or a value out of
    range is written as RuneError. *)
Definition encode3 (r : Z) : string :=
  String (chr (Z.lor 0xE0 (Z.shiftr r 12)))
    (String (chr (Z.lor 0x80 (Z.land (Z.shiftr r 6) maskx)))
      (String (chr (Z.lor 0x80 (Z.land r maskx))) "")).

Definition EncodeRune (r : Z) : string :=
  if (0 <=? r) && (r <=? 0x7F) then String (chr r) ""
  else if (0 <=? r) && (r <=? 0x7FF) then
    String (chr (Z.lor 0xC0 (Z.shiftr r 6)))
      (String (chr (Z.lor 0x80 (Z.land r maskx))) "")
  else if (r <? 0) || (MaxRune <? r)
          || ((surrogateMin <=? r) && (r <=? surrogateMax)) then
    encode3 RuneError
  else if r <=? 0xFFFF then encode3 r
  else
    String (chr (Z.lor 0xF0 (Z.shiftr r 18)))
      (String (chr (Z.lor 0x80 (Z.land (Z.shiftr r 12) maskx)))
        (String (chr (Z.lor 0x80 (Z.land (Z.shiftr r 6) maskx)))
          (String (chr (Z.lor 0x80 (Z.land r maskx))) ""))).

(** ValidString: the loop runs over the encodings of [s]; [fuel] bounds
    its iterations and the length of [s] is always enough. *)
Fixpoint validLoop (fuel : nat) (s : string) : bool :=
  match s with
  | EmptyString => true
  | String c t =>
    match fuel with
    | O => false
    | S fuel =>
      if byte c <? RuneSelf then validLoop fuel t
      else
        let '(_, size) := DecodeRuneInString s in
        if (size =? 1)%nat then false else validLoop fuel (sdrop size s)
    end
  end.

Definition ValidString (s : string) : bool := validLoop (String.length s) s.

(** *** What a decoded rune is

    The rune of two, three and four bytes, the bytes a leading byte accepts
    and the cases of DecodeRuneInString, for the facts below. *)

Definition rune2 (s0 s1 : Z) : Z :=
  Z.lor (Z.shiftl (Z.land s0 mask2) 6) (Z.land s1 maskx).

Definition rune3 (s0 s1 s2 : Z) : Z :=
  Z.lor (Z.lor (Z.shiftl (Z.land s0 mask3) 12) (Z.shiftl (Z.land s1 maskx) 6))
        (Z.land s2 maskx).

Definition rune4 (s0 s1 s2 s3 : Z) : Z :=
  Z.lor (Z.lor (Z.lor (Z.shiftl (Z.land s0 mask4) 18) (Z.shiftl (Z.land s1 maskx) 12))
               (Z.shiftl (Z.land s2 maskx) 6))
        (Z.land s3 maskx).

(** The second byte a leading byte accepts. *)
Definition accepts (s0 s1 : Z) : bool :=
  match first s0 with
  | lead _ a => (lo a <=? s1) && (s1 <=? hi a)
  | _ => false
  end.

Definition cont (s : Z) : bool := (locb <=? s) && (s <=? hicb).

Inductive decoded (s : string) (r : Z) : nat -> Prop :=
| dec_empty : s = "" -> r = RuneError -> decoded s r 0
| dec_ascii c t : s = String c t -> byte c < 0x80 -> r = byte c -> decoded s r 1
| dec_error c t : s = String c t -> 0x80 <= byte c -> r = RuneError -> decoded s r 1
| dec_2 c0 c1 t :
    s = String c0 (String c1 t) ->
    0xC2 <= byte c0 < 0xE0 -> accepts (byte c0) (byte c1) = true ->
    r = rune2 (byte c0) (byte c1) -> decoded s r 2
| dec_3 c0 c1 c2 t :
    s = String c0 (String c1 (String c2 t)) ->
    0xE0 <= byte c0 < 0xF0 -> accepts (byte c0) (byte c1) = true ->
    cont (byte c2) = true ->
    r = rune3 (byte c0) (byte c1) (byte c2) -> decoded s r 3
| dec_4 c0 c1 c2 c3 t :
    s = String c0 (String c1 (String c2 (String c3 t))) ->
    0xF0 <= byte c0 < 0xF5 -> accepts (byte c0) (byte c1) = true ->
    cont (byte c2) = true -> cont (byte c3) = true ->
    r = rune4 (byte c0) (byte c1) (byte c2) (byte c3) -> decoded s r 4.

Definition bytes2 (s0 s1 : Z) : string := String (chr s0) (String (chr s1) "").

Definition bytes3 (s0 s1 s2 : Z) : string := String (chr s0) (bytes2 s1 s2).

Definition bytes4 (s0 s1 s2 s3 : Z) : string := String (chr s0) (bytes3 s1 s2 s3).

Definition conts : list Z := seqZ 0x80 64.

Definition ok2 (s0 s1 : Z) : bool :=
  implb (accepts s0 s1) (String.eqb (EncodeRune (rune2 s0 s1)) (bytes2 s0 s1)).

Definition ok3 (s0 s1 s2 : Z) : bool :=
  String.eqb (EncodeRune (rune3 s0 s1 s2)) (bytes3 s0 s1 s2).

Definition ok3' (s0 s1 : Z) : bool :=
  implb (accepts s0 s1) (forallb (ok3 s0 s1) conts).

Definition ok4 (s0 s1 s2 s3 : Z) : bool :=
  String.eqb (EncodeRune (rune4 s0 s1 s2 s3)) (bytes4 s0 s1 s2 s3).

Definition ok4' (s0 s1 : Z) : bool :=
  implb (accepts s0 s1) (forallb (fun s2 => forallb (ok4 s0 s1 s2) conts) conts).
End utf8.

(** ** strconv *)

Module strconv.

(** FormatInt(i, 10): the decimal digits of [i], with a leading minus
    sign for a negative number. *)
Definition FormatInt (i : Z) : string := NilZero.string_of_int (Z.to_int i).

(** An int has IntSize bits. *)
Definition IntSize : Z := 64.
Definition int_range (i : Z) : Prop :=
  - 2 ^ (IntSize - 1) <= i < 2 ^ (IntSize - 1).

(** binary64 *)
Definition prec : Z := 53.
Definition emax : Z := 1024.

(** ParseFloat(s, 64) on a decimal literal that has been read as
    (-1)^neg * mant * 10^exp10: the nearest float64, ties to even.
    [None] is ErrRange (the value rounds to an infinity). *)
Definition atof64 (neg : bool) (mant : N) (exp10 : Z) : option spec_float :=
  match mant with
  | N0 => Some (S754_zero neg)
  | Npos m =>
    let f :=
      if 0 <=? exp10 then
        binary_round prec emax neg (m * Z.to_pos (10 ^ exp10))%positive 0
      else
        SFdiv prec emax (S754_finite neg m 0)
              (S754_finite false (Z.to_pos (10 ^ (- exp10))) 0) in
    match f with
    | S754_infinity _ | S754_nan => None
    | _ => Some f
    end
  end.

(** The float64 a decimal integer literal is read as. *)
Definition float64_of_int (i : Z) : option spec_float :=
  atof64 (i <? 0) (Z.to_N (Z.abs i)) 0.

(** The integer a float64 stands for, when it stands for one. *)
Definition int_of_float64 (f : spec_float) : option Z :=
  match f with
  | S754_zero _ => Some 0
  | S754_finite s m e =>
    let v := if 0 <=? e then Some (Z.pos m * 2 ^ e)
             else if Z.pos m mod 2 ^ (- e) =? 0 then Some (Z.pos m / 2 ^ (- e))
             else None in
    (if s then Z.opp else id) <$> v
  | _ => None
  end.

End strconv.

(** ** encoding/json *)

Module json.

Inductive error :=
| SyntaxError          (* the bytes are not a JSON text *)
| UnmarshalTypeError.  (* a number that no float64 holds *)

Inductive res (A : Type) := Ok (a : A) | Err (e : error).
Global Arguments Ok {A} a.
Global Arguments Err {A} e.

Notation "'let*' p := e 'in' k" :=
  (match e with Ok p => k | Err err => Err err end)
  (at level 10, p pattern, e at level 100, k at level 200, only parsing).

(** *** Encoder *)

Definition hex (n : Z) : ascii :=
  match String.get (Z.to_nat n) "0123456789abcdef" with
  | Some c => c
  | None => "0"%char
  end.

(** htmlSafeSet[b]: the ASCII bytes written as they are. *)
Definition htmlSafeSet (b : Z) : bool :=
  (0x20 <=? b) && (b <? 0x80)
  && negb ((b =? 0x22) || (b =? 0x26) || (b =? 0x3C) || (b =? 0x3E) || (b =? 0x5C)).

(** The escape written for an ASCII byte outside htmlSafeSet. *)
Definition escapeByte (c : ascii) : string :=
  let b := byte c in
  String backslash
    (if (b =? 0x5C) || (b =? 0x22) then String c ""
     else if b =? 0x0A then "n"
     else if b =? 0x0D then "r"
     else if b =? 0x09 then "t"
     else "u00" +:+ String (hex (Z.shiftr b 4)) (String (hex (Z.land b 0xF)) "")).

Definition ufffd : string := String backslash "ufffd".

(** The loop of encodeState.string with escapeHTML set: one step for each
    byte or rune of [s]. *)
Fixpoint stringLoop (fuel : nat) (s : string) : string :=
  match fuel, s with
  | S fuel, String c t =>
    if byte c <? utf8.RuneSelf then
      (if htmlSafeSet (byte c) then String c "" else escapeByte c)
        +:+ stringLoop fuel t
    else
      let '(r, size) := utf8.DecodeRuneInString s in
      if (r =? utf8.RuneError) && (size =? 1)%nat then
        ufffd +:+ stringLoop fuel t
      else if (r =? 0x2028) || (r =? 0x2029) then
        String backslash ("u202" +:+ String (hex (Z.land r 0xF)) "")
          +:+ stringLoop fuel (sdrop size s)
      else stake size s +:+ stringLoop fuel (sdrop size s)
  | _, _ => ""
  end.

Definition encodeString (s : string) : string :=
  String dquote (stringLoop (String.length s) s +:+ String dquote "").

(** The values the encoder is handed, by kind.  [VSlice []] is the nil
    slice; [VMap] is a map that is not nil, by its entries. *)
Record field := { name : string; omitEmpty : bool }.

Inductive value :=
| VString (s : string)
| VInt (i : Z)
| VBool (b : bool)
| VSlice (l : list value)
| VStruct (fs : list (field * value))
| VMap (kvs : list (string * value)).

Definition isEmptyValue (v : value) : bool :=
  match v with
  | VString s => (String.length s =? 0)%nat
  | VInt i => i =? 0
  | VBool b => negb b
  | VSlice l => (length l =? 0)%nat
  | VStruct _ => false
  | VMap kvs => (length kvs =? 0)%nat
  end.

Fixpoint sjoin (sep : string) (l : list string) : string :=
  match l with
  | [] => ""
  | [x] => x
  | x :: l => x +:+ sep +:+ sjoin sep l
  end.

Definition member (key text : string) : string :=
  encodeString key +:+ ":" +:+ text.

Definition object (ms : list (string * string)) : string :=
  "{" +:+ sjoin "," (map (λ kt, member kt.1 kt.2) ms) +:+ "}".

(** m[k], for a map given by its entries *)
Fixpoint assoc {A} (k : string) (l : list (string * A)) : option A :=
  match l with
  | [] => None
  | (k', a) :: l => if decide (k = k') then Some a else assoc k l
  end.

(** The fields of a struct in their order, a field tagged omitempty only
    when its value is not empty; [enc] is what is done with a value. *)
Definition members {A} (enc : value → A)
  : list (field * value) → list (string * A) :=
  fix go fs :=
    match fs with
    | [] => []
    | (f, v) :: fs =>
      if omitEmpty f && isEmptyValue v then go fs
      else (name f, enc v) :: go fs
    end.

(** The entries of a map: the keys are sorted, then each one is looked
    up. *)
Definition entries {A} (enc : value → A) (nil : A) (kvs : list (string * value))
  : list (string * A) :=
  let els := map (λ kv, (kv.1, enc kv.2)) kvs in
  map (λ k, (k, default nil (assoc k els))) (merge_sort String.le (map fst kvs)).

Fixpoint encode (v : value) : string :=
  match v with
  | VString s => encodeString s
  | VInt i => strconv.FormatInt i
  | VBool b => if b then "true" else "false"
  | VSlice l =>
    match l with
    | [] => "null"
    | _ => "[" +:+ sjoin "," (map encode l) +:+ "]"
    end
  | VStruct fs => object (members encode fs)
  | VMap kvs => object (entries encode "null" kvs)
  end.

(** Marshal fails on kinds and values JSON has no form for; [value] has
    none of them. *)
Definition Marshal (v : value) : res string := Ok (encode v).

(** *** Decoder, into an empty interface *)

(** What Unmarshal stores in an [interface{}]: nil, bool, float64, string,
    []interface{} or map[string]interface{}. *)
Inductive gval :=
| GNil
| GBool (b : bool)
| GFloat64 (f : spec_float)
| GString (s : string)
| GSlice (l : list gval)
| GMap (m : gmap string gval).

Definition isSpace (c : ascii) : bool :=
  let b := byte c in (b =? 0x20) || (b =? 0x09) || (b =? 0x0D) || (b =? 0x0A).

Fixpoint skipSpace (s : string) : string :=
  match s with
  | String c t => if isSpace c then skipSpace t else s
  | EmptyString => s
  end.

Definition hexval (c : ascii) : option Z :=
  let b := byte c in
  if (0x30 <=? b) && (b <=? 0x39) then Some (b - 0x30)
  else if (0x61 <=? b) && (b <=? 0x66) then Some (b - 0x61 + 10)
  else if (0x41 <=? b) && (b <=? 0x46) then Some (b - 0x41 + 10)
  else None.

(** getu4, on the text after the backslash: the rune of uXXXX and the
    text behind it. *)
Definition getu4 (s : string) : option (Z * string) :=
  match s with
  | String u (String c1 (String c2 (String c3 (String c4 t)))) =>
    if byte u =? 0x75 then
      match hexval c1, hexval c2, hexval c3, hexval c4 with
      | Some h1, Some h2, Some h3, Some h4 =>
        Some (((h1 * 16 + h2) * 16 + h3) * 16 + h4, t)
      | _, _, _, _ => None
      end
    else None
  | _ => None
  end.

(** getu4 on text that starts with the backslash. *)
Definition getu4' (s : string) : option (Z * string) :=
  match s with
  | String c t => if byte c =? 0x5C then getu4 t else None
  | EmptyString => None
  end.

(** utf16.DecodeRune *)
Definition utf16_DecodeRune (r1 r2 : Z) : Z :=
  if (0xD800 <=? r1) && (r1 <? 0xDC00) && (0xDC00 <=? r2) && (r2 <? 0xE000)
  then Z.lor (Z.shiftl (r1 - 0xD800) 10) (r2 - 0xDC00) + 0x10000
  else utf8.RuneError.

Definition prepend (p : string) (r : res (string * string)) : res (string * string) :=
  let* (str, t) := r in Ok (p +:+ str, t).

(** The string literal whose opening quote has been read: its value and
    the text behind the closing quote.  [fuel] bounds the steps; the
    length of [s] is always enough. *)
Fixpoint unquote (fuel : nat) (s : string) : res (string * string) :=
  match fuel, s with
  | S fuel, String c t =>
    let b := byte c in
    if b =? 0x22 then Ok ("", t)
    else if b =? 0x5C then
      match t with
      | String e t' =>
        let x := byte e in
        if (x =? 0x22) || (x =? 0x5C) || (x =? 0x2F) then
          prepend (String e "") (unquote fuel t')
        else if x =? 0x62 then prepend (String (chr 0x08) "") (unquote fuel t')
        else if x =? 0x66 then prepend (String (chr 0x0C) "") (unquote fuel t')
        else if x =? 0x6E then prepend (String (chr 0x0A) "") (unquote fuel t')
        else if x =? 0x72 then prepend (String (chr 0x0D) "") (unquote fuel t')
        else if x =? 0x74 then prepend (String (chr 0x09) "") (unquote fuel t')
        else
          match getu4 t with
          | Some (rr, t1) =>
            if (0xD800 <=? rr) && (rr <? 0xE000) then
              match getu4' t1 with
              | Some (rr1, t2) =>
                let dec := utf16_DecodeRune rr rr1 in
                if dec =? utf8.RuneError then
                  prepend (utf8.EncodeRune utf8.RuneError) (unquote fuel t1)
                else prepend (utf8.EncodeRune dec) (unquote fuel t2)
              | None =>
                prepend (utf8.EncodeRune utf8.RuneError) (unquote fuel t1)
              end
            else prepend (utf8.EncodeRune rr) (unquote fuel t1)
          | None => Err SyntaxError
          end
      | EmptyString => Err SyntaxError
      end
    else if b <? 0x20 then Err SyntaxError
    else if b <? utf8.RuneSelf then prepend (String c "") (unquote fuel t)
    else
      let '(rr, size) := utf8.DecodeRuneInString s in
      prepend (utf8.EncodeRune rr) (unquote fuel (sdrop size s))
  | _, _ => Err SyntaxError
  end.

Definition isDigit (c : ascii) : bool := (0x30 <=? byte c) && (byte c <=? 0x39).

(** A run of digits: the number read so far, how many digits were read,
    and the text behind them. *)
Fixpoint digits (s : string) (acc : N) (n : nat) : N * nat * string :=
  match s with
  | String c t =>
    if isDigit c then digits t (acc * 10 + Z.to_N (byte c - 0x30))%N (S n)
    else (acc, n, s)
  | EmptyString => (acc, n, s)
  end.

(** convertNumber: a number literal becomes a float64. *)
Definition convertNumber (neg : bool) (mant : N) (exp10 : Z) (t : string)
  : res (gval * string) :=
  match strconv.atof64 neg mant exp10 with
  | Some f => Ok (GFloat64 f, t)
  | None => Err UnmarshalTypeError
  end.

Definition exponent (neg : bool) (mant : N) (exp10 : Z) (s : string)
  : res (gval * string) :=
  match s with
  | String c t =>
    if (byte c =? 0x65) || (byte c =? 0x45) then
      let '(eneg, t) :=
        match t with
        | String sg t' =>
          if byte sg =? 0x2D then (true, t')
          else if byte sg =? 0x2B then (false, t')
          else (false, t)
        | EmptyString => (false, t)
        end in
      let '(x, n, t) := digits t 0%N 0%nat in
      if (n =? 0)%nat then Err SyntaxError
      else convertNumber neg mant
             (exp10 + (if eneg then - Z.of_N x else Z.of_N x)) t
    else convertNumber neg mant exp10 s
  | EmptyString => convertNumber neg mant exp10 s
  end.

Definition fraction (neg : bool) (mant : N) (s : string) : res (gval * string) :=
  match s with
  | String c t =>
    if byte c =? 0x2E then
      let '(m, n, t) := digits t mant 0%nat in
      if (n =? 0)%nat then Err SyntaxError
      else exponent neg m (- Z.of_nat n) t
    else exponent neg mant 0 s
  | EmptyString => exponent neg mant 0 s
  end.

Definition number (s : string) : res (gval * string) :=
  let '(neg, s) :=
    match s with
    | String c t => if byte c =? 0x2D then (true, t) else (false, s)
    | EmptyString => (false, s)
    end in
  match s with
  | String c t =>
    if byte c =? 0x30 then fraction neg 0%N t
    else if isDigit c then
      let '(m, _, t) := digits s 0%N 0%nat in fraction neg m t
    else Err SyntaxError
  | EmptyString => Err SyntaxError
  end.

(** true, false, null: the letters behind the first one. *)
Fixpoint letters (rest t : string) : option string :=
  match rest, t with
  | EmptyString, _ => Some t
  | String a rest, String c t => if Ascii.eqb a c then letters rest t else None
  | String _ _, EmptyString => None
  end.

Definition literal (rest : string) (v : gval) (t : string) : res (gval * string) :=
  match letters rest t with
  | Some t => Ok (v, t)
  | None => Err SyntaxError
  end.

(** One value, then the members of an object whose brace has been read,
    then the elements of an array whose bracket has been read.  [fuel]
    bounds the depth of the calls. *)
Fixpoint decodeValue (fuel : nat) (s : string) : res (gval * string) :=
  match fuel with
  | O => Err SyntaxError
  | S fuel =>
    match skipSpace s with
    | EmptyString => Err SyntaxError
    | String c t =>
      let b := byte c in
      if b =? 0x7B then
        match skipSpace t with
        | String c' t' =>
          if byte c' =? 0x7D then Ok (GMap ∅, t') else decodeObject fuel ∅ t
        | EmptyString => Err SyntaxError
        end
      else if b =? 0x5B then
        match skipSpace t with
        | String c' t' =>
          if byte c' =? 0x5D then Ok (GSlice [], t') else decodeArray fuel [] t
        | EmptyString => Err SyntaxError
        end
      else if b =? 0x22 then
        let* (str, t') := unquote (String.length t) t in Ok (GString str, t')
      else if b =? 0x74 then literal "rue" (GBool true) t
      else if b =? 0x66 then literal "alse" (GBool false) t
      else if b =? 0x6E then literal "ull" GNil t
      else number (String c t)
    end
  end
with decodeObject (fuel : nat) (m : gmap string gval) (s : string)
  : res (gval * string) :=
  match fuel with
  | O => Err SyntaxError
  | S fuel =>
    match skipSpace s with
    | String c t =>
      if byte c =? 0x22 then
        let* (key, t) := unquote (String.length t) t in
        match skipSpace t with
        | String c t =>
          if byte c =? 0x3A then
            let* (v, t) := decodeValue fuel t in
            let m := <[key := v]> m in
            match skipSpace t with
            | String c t =>
              if byte c =? 0x2C then decodeObject fuel m t
              else if byte c =? 0x7D then Ok (GMap m, t)
              else Err SyntaxError
            | EmptyString => Err SyntaxError
            end
          else Err SyntaxError
        | EmptyString => Err SyntaxError
        end
      else Err SyntaxError
    | EmptyString => Err SyntaxError
    end
  end
with decodeArray (fuel : nat) (acc : list gval) (s : string)
  : res (gval * string) :=
  match fuel with
  | O => Err SyntaxError
  | S fuel =>
    let* (v, t) := decodeValue fuel s in
    match skipSpace t with
    | String c t =>
      if byte c =? 0x2C then decodeArray fuel (acc ++ [v]) t
      else if byte c =? 0x5D then Ok (GSlice (acc ++ [v]), t)
      else Err SyntaxError
    | EmptyString => Err SyntaxError
    end
  end.

(** Unmarshal(data, &v) for [v] an empty interface: one value, with
    nothing but white space around it. *)
Definition Unmarshal (data : string) : res gval :=
  let* (v, t) := decodeValue (2 * String.length data + 2) data in
  match skipSpace t with
  | EmptyString => Ok v
  | String _ _ => Err SyntaxError
  end.

(** *** What an encoded value is read back as *)

(** A string comes back coerced to valid UTF-8: a byte that starts no
    valid encoding is replaced by U+FFFD. *)
Fixpoint coerceLoop (fuel : nat) (s : string) : string :=
  match fuel, s with
  | S fuel, String c t =>
    if byte c <? utf8.RuneSelf then String c (coerceLoop fuel t)
    else
      let '(_, size) := utf8.DecodeRuneInString s in
      if (size =? 1)%nat then
        utf8.EncodeRune utf8.RuneError +:+ coerceLoop fuel t
      else stake size s +:+ coerceLoop fuel (sdrop size s)
  | _, _ => ""
  end.

Definition coerce (s : string) : string := coerceLoop (String.length s) s.

Definition gobject (ms : list (string * gval)) : gval :=
  GMap (foldl (λ m kg, <[coerce kg.1 := kg.2]> m) ∅ ms).

(** An int comes back as the nearest float64, a nil slice as nil, a
    struct or a map as a map from the (coerced) keys. *)
Fixpoint generic (v : value) : gval :=
  match v with
  | VString s => GString (coerce s)
  | VInt i =>
    match strconv.float64_of_int i with
    | Some f => GFloat64 f
    | None => GNil
    end
  | VBool b => GBool b
  | VSlice l =>
    match l with
    | [] => GNil
    | _ => GSlice (map generic l)
    end
  | VStruct fs => gobject (members generic fs)
  | VMap kvs => gobject (entries generic GNil kvs)
  end.

(** The values Marshal is handed here: every int is an int. *)
Inductive wf : value → Prop :=
| wf_string s : wf (VString s)
| wf_int i : strconv.int_range i → wf (VInt i)
| wf_bool b : wf (VBool b)
| wf_slice l : Forall wf l → wf (VSlice l)
| wf_struct fs : Forall (λ fv, wf fv.2) fs → wf (VStruct fs)
| wf_map kvs : Forall (λ kv, wf kv.2) kvs → wf (VMap kvs).

(** Reading the output: a key of a map, the keys of a map, a path of keys,
    a number that is an integer. *)
Definition key (k : string) (g : gval) : option gval :=
  match g with
  | GMap m => m !! k
  | _ => None
  end.

Definition keys (g : gval) : gset string :=
  match g with
  | GMap m => dom m
  | _ => ∅
  end.

Definition path (ks : list string) (g : gval) : option gval :=
  foldl (λ og k, og ≫= key k) (Some g) ks.

Definition as_int (g : gval) : option Z :=
  match g with
  | GFloat64 f => strconv.int_of_float64 f
  | _ => None
  end.

Definition gstring (s : string) : gval := GString (coerce s).
Definition gstrings (l : list string) : gval := GSlice (gstring <$> l).

(** *** What reading a text means, for the facts below *)

(** The number a run of decimal digits adds to what was read before it. *)
Fixpoint uint_acc (d : uint) (acc : N) : N :=
  match d with
  | Nil => acc
  | D0 d => uint_acc d (acc * 10 + 0)
  | D1 d => uint_acc d (acc * 10 + 1)
  | D2 d => uint_acc d (acc * 10 + 2)
  | D3 d => uint_acc d (acc * 10 + 3)
  | D4 d => uint_acc d (acc * 10 + 4)
  | D5 d => uint_acc d (acc * 10 + 5)
  | D6 d => uint_acc d (acc * 10 + 6)
  | D7 d => uint_acc d (acc * 10 + 7)
  | D8 d => uint_acc d (acc * 10 + 8)
  | D9 d => uint_acc d (acc * 10 + 9)
  end%N.

(** What may stand behind a number. *)
Definition ends_number (X : string) : Prop :=
  match X with
  | EmptyString => True
  | String c _ =>
    isDigit c = false /\ byte c <> 0x2E /\ byte c <> 0x65 /\ byte c <> 0x45
  end.

(** What stands behind a value inside an array or an object, or at the
    end of the text. *)
Definition delim (X : string) : Prop :=
  match X with
  | EmptyString => True
  | String c _ => byte c = 0x2C \/ byte c = 0x5D \/ byte c = 0x7D
  end.

(** [text] is read as [g], whatever delimiter follows it. *)
Definition parses (text : string) (g : gval) : Prop :=
  forall fuel X, delim X -> (String.length text <= fuel)%nat ->
    decodeValue fuel (text +:+ X) = Ok (g, X).

Definition member_parses (kt : string * string) (kg : string * gval) : Prop :=
  kt.1 = kg.1 /\ parses kt.2 kg.2.

Definition members_text (ms : list (string * string)) : string :=
  sjoin "," (map (fun kt => member kt.1 kt.2) ms).

Definition plain_keys {A} (l : list (string * A)) : Prop :=
  Forall (fun kg => coerce kg.1 = kg.1) l /\ NoDup l.*1.
End json.

(** ** Package broker: the credentials builder *)

(** A Go panic: [Done a] is a normal result, [Panic e] unwinds the call. *)
Inductive runtimeError := IndexOutOfRange.

Inductive exec (A : Type) := Done (a : A) | Panic (e : runtimeError).
Global Arguments Done {A} a.
Global Arguments Panic {A} e.

Global Instance exec_ret : MRet exec := @Done.
Global Instance exec_bind : MBind exec := λ A B f m,
  match m with
  | Done a => f a
  | Panic e => Panic e
  end.

(** l[i] *)
Definition index {A} (l : list A) (i : nat) : exec A :=
  match l !! i with
  | Some x => Done x
  | None => Panic IndexOutOfRange
  end.

Record Builder := {
  MgmtDomain : string;
  Hostnames : list string;
  VHost : string;
  Username : string;
  Password : string;
  TLS : bool;
  ProtocolPorts : gmap string Z   (* key=protocol, value=port *)
}.

Module protocol.
Record t := {
  Username : string;
  Password : string;
  VHost : string;
  Hostname : string;
  Hostnames : list string;
  URI : string;
  URIs : list string;
  Port : Z;
  TLS : bool;
  Path : string
}.
End protocol.

Module binding.
Record t := {
  DashboardURL : string;
  Username : string;
  Password : string;
  Hostname : string;
  Hostnames : list string;
  HTTPAPIURI : string;
  HTTPAPIURIs : list string;
  URI : string;
  URIs : list string;
  VHost : string;
  TLS : bool;
  Protocols : gmap string protocol.t
}.
End binding.

Section builder.
Variable b : Builder.

(** fmt.Sprintf("http://%s/#/login/%s/%s", ...) *)
Definition dashboardURL : string :=
  "http://" +:+ MgmtDomain b +:+ "/#/login/" +:+ Username b +:+ "/" +:+ Password b.

(** fmt.Sprintf("%s://%s:%s@%s/%s", "amqp", ...) *)
Definition uriForBinding (hostname : string) : string :=
  "amqp" +:+ "://" +:+ Username b +:+ ":" +:+ Password b +:+ "@"
    +:+ hostname +:+ "/" +:+ VHost b.

(** The range loops append one URI for each hostname, in order. *)
Definition urisForBinding : list string :=
  foldl (λ uris hostname, uris ++ [uriForBinding hostname]) [] (Hostnames b).

Definition httpapiuriForBinding : string :=
  "http://" +:+ Username b +:+ ":" +:+ Password b +:+ "@" +:+ MgmtDomain b +:+ "/api/".

Definition httpapiurisForBinding : list string := [httpapiuriForBinding].

(** fmt.Sprintf("%s://%s:%s@%s:%d/%s", "amqp", ...) *)
Definition uriForAMQP (hostname : string) (port : Z) : string :=
  "amqp" +:+ "://" +:+ Username b +:+ ":" +:+ Password b +:+ "@"
    +:+ hostname +:+ ":" +:+ strconv.FormatInt port +:+ "/" +:+ VHost b.

Definition urisForAMQP (port : Z) : list string :=
  foldl (λ uris hostname, uris ++ [uriForAMQP hostname port]) [] (Hostnames b).

(** fmt.Sprintf("http://%s:%s@%s:%d/api/", ...) *)
Definition uriForManagement (hostname : string) (port : Z) : string :=
  "http://" +:+ Username b +:+ ":" +:+ Password b +:+ "@"
    +:+ hostname +:+ ":" +:+ strconv.FormatInt port +:+ "/api/".

Definition urisForManagement (port : Z) : list string :=
  foldl (λ uris hostname, uris ++ [uriForManagement hostname port]) [] (Hostnames b).

Definition addAMQPProtocol (port : Z) (tls : bool) : exec protocol.t :=
  hostname ← index (Hostnames b) 0;
  hostname' ← index (Hostnames b) 0;
  mret {| protocol.Username := Username b;
          protocol.Password := Password b;
          protocol.VHost := VHost b;
          protocol.Hostname := hostname;
          protocol.Hostnames := Hostnames b;
          protocol.URI := uriForAMQP hostname' port;
          protocol.URIs := urisForAMQP port;
          protocol.Port := port;
          protocol.TLS := tls;
          protocol.Path := "" |}.

Definition addMgmtProtocol : exec protocol.t :=
  hostname ← index (Hostnames b) 0;
  hostname' ← index (Hostnames b) 0;
  mret {| protocol.Username := Username b;
          protocol.Password := Password b;
          protocol.VHost := "";
          protocol.Hostname := hostname;
          protocol.Hostnames := Hostnames b;
          protocol.URI := uriForManagement hostname' 15672;
          protocol.URIs := urisForManagement 15672;
          protocol.Port := 15672;
          protocol.TLS := false;
          protocol.Path := "/api/" |}.

(** The range over ProtocolPorts, then the management entry. *)
Definition protocols : exec (gmap string protocol.t) :=
  ps ← map_fold
         (λ (protocol : string) (port : Z) (acc : exec (gmap string protocol.t)),
            ps ← acc;
            if decide (protocol = "amqp") then
              p ← addAMQPProtocol port false;
              mret (<["amqp" := p]> ps)
            else mret ps)
         (mret ∅) (ProtocolPorts b);
  mgmt ← addMgmtProtocol;
  mret (<["management" := mgmt]> ps).

Definition bind : exec binding.t :=
  hostname ← index (Hostnames b) 0;
  hostname' ← index (Hostnames b) 0;
  ps ← protocols;
  mret {| binding.VHost := VHost b;
          binding.Username := Username b;
          binding.Password := Password b;
          binding.DashboardURL := dashboardURL;
          binding.Hostname := hostname;
          binding.Hostnames := Hostnames b;
          binding.HTTPAPIURI := httpapiuriForBinding;
          binding.HTTPAPIURIs := httpapiurisForBinding;
          binding.URI := uriForBinding hostname';
          binding.URIs := urisForBinding;
          binding.TLS := TLS b;
          binding.Protocols := ps |}.
End builder.

(** The struct tags of [protocol] and [binding], as the encoder sees the
    two types. *)
Definition tag (name : string) : json.field :=
  {| json.name := name; json.omitEmpty := false |}.
Definition tag_omitempty (name : string) : json.field :=
  {| json.name := name; json.omitEmpty := true |}.

Definition strings_value (l : list string) : json.value :=
  json.VSlice (json.VString <$> l).

Definition protocol_value (p : protocol.t) : json.value :=
  json.VStruct
    [ (tag "username", json.VString (protocol.Username p));
      (tag "password", json.VString (protocol.Password p));
      (tag_omitempty "vhost", json.VString (protocol.VHost p));
      (tag "host", json.VString (protocol.Hostname p));
      (tag "hosts", strings_value (protocol.Hostnames p));
      (tag "uri", json.VString (protocol.URI p));
      (tag "uris", strings_value (protocol.URIs p));
      (tag "port", json.VInt (protocol.Port p));
      (tag "ssl", json.VBool (protocol.TLS p));
      (tag_omitempty "path", json.VString (protocol.Path p)) ].

Definition protocols_value (ps : gmap string protocol.t) : json.value :=
  json.VMap (map_to_list (protocol_value <$> ps)).

Definition binding_value (v : binding.t) : json.value :=
  json.VStruct
    [ (tag "dashboard_url", json.VString (binding.DashboardURL v));
      (tag "username", json.VString (binding.Username v));
      (tag "password", json.VString (binding.Password v));
      (tag "hostname", json.VString (binding.Hostname v));
      (tag "hostnames", strings_value (binding.Hostnames v));
      (tag "http_api_uri", json.VString (binding.HTTPAPIURI v));
      (tag "http_api_uris", strings_value (binding.HTTPAPIURIs v));
      (tag "uri", json.VString (binding.URI v));
      (tag "uris", strings_value (binding.URIs v));
      (tag "vhost", json.VString (binding.VHost v));
      (tag "ssl", json.VBool (binding.TLS v));
      (tag "protocols", protocols_value (binding.Protocols v)) ].

(** Build: the typed binding goes through Marshal and Unmarshal.  A result
    is the pair Go returns: the output with a nil error ([json.Ok]) or an
    error ([json.Err]; the output returned next to it is not modelled). *)
Definition Build (b : Builder) : exec (json.res json.gval) :=
  v ← bind b;
  mret (match json.Marshal (binding_value v) with
        | json.Err err => json.Err err
        | json.Ok bytes => json.Unmarshal bytes
        end).

(** ** What the claims speak of *)

(** A Builder whose ports are Go ints. *)
Definition Builder_wf (b : Builder) : Prop :=
  map_Forall (λ _ port, strconv.int_range port) (ProtocolPorts b).

(** The descriptors and the binding that are built when [hostname] is
    b.Hostnames[0]. *)
Definition amqpProtocol (b : Builder) (hostname : string) (port : Z) : protocol.t :=
  {| protocol.Username := Username b;
     protocol.Password := Password b;
     protocol.VHost := VHost b;
     protocol.Hostname := hostname;
     protocol.Hostnames := Hostnames b;
     protocol.URI := uriForAMQP b hostname port;
     protocol.URIs := (λ h, uriForAMQP b h port) <$> Hostnames b;
     protocol.Port := port;
     protocol.TLS := false;
     protocol.Path := "" |}.

Definition mgmtProtocol (b : Builder) (hostname : string) : protocol.t :=
  {| protocol.Username := Username b;
     protocol.Password := Password b;
     protocol.VHost := "";
     protocol.Hostname := hostname;
     protocol.Hostnames := Hostnames b;
     protocol.URI := uriForManagement b hostname 15672;
     protocol.URIs := (λ h, uriForManagement b h 15672) <$> Hostnames b;
     protocol.Port := 15672;
     protocol.TLS := false;
     protocol.Path := "/api/" |}.

Definition amqpEntry (b : Builder) (hostname : string) : gmap string protocol.t :=
  match ProtocolPorts b !! "amqp" with
  | Some port => {[ "amqp" := amqpProtocol b hostname port ]}
  | None => ∅
  end.

Definition protocolsMap (b : Builder) (hostname : string) : gmap string protocol.t :=
  <["management" := mgmtProtocol b hostname]> (amqpEntry b hostname).

Definition theBinding (b : Builder) (hostname : string) : binding.t :=
  {| binding.VHost := VHost b;
     binding.Username := Username b;
     binding.Password := Password b;
     binding.DashboardURL := dashboardURL b;
     binding.Hostname := hostname;
     binding.Hostnames := Hostnames b;
     binding.HTTPAPIURI := httpapiuriForBinding b;
     binding.HTTPAPIURIs := [httpapiuriForBinding b];
     binding.URI := uriForBinding b hostname;
     binding.URIs := uriForBinding b <$> Hostnames b;
     binding.TLS := TLS b;
     binding.Protocols := protocolsMap b hostname |}.

(** The record Build returns, written out.  First the three shapes, over
    any values: a descriptor (vhost and path are optional), the protocols
    (amqp is optional) and the binding. *)
Definition descriptor (username password : json.gval) (vhost : option json.gval)
    (host hosts uri uris port ssl : json.gval) (path : option json.gval) : json.gval :=
  json.gobject
    ([ ("username", username); ("password", password) ]
     ++ match vhost with Some g => [ ("vhost", g) ] | None => [] end
     ++ [ ("host", host); ("hosts", hosts); ("uri", uri); ("uris", uris);
          ("port", port); ("ssl", ssl) ]
     ++ match path with Some g => [ ("path", g) ] | None => [] end).

Definition descriptors (amqp : option json.gval) (management : json.gval) : json.gval :=
  json.gobject
    (match amqp with Some g => [ ("amqp", g) ] | None => [] end
     ++ [ ("management", management) ]).

Definition record (dashboard_url username password hostname hostnames
    http_api_uri http_api_uris uri uris vhost ssl protocols : json.gval) : json.gval :=
  json.gobject
    [ ("dashboard_url", dashboard_url); ("username", username);
      ("password", password); ("hostname", hostname); ("hostnames", hostnames);
      ("http_api_uri", http_api_uri); ("http_api_uris", http_api_uris);
      ("uri", uri); ("uris", uris); ("vhost", vhost); ("ssl", ssl);
      ("protocols", protocols) ].

(** A string tagged omitempty: no member when it is empty. *)
Definition omitempty (s : string) : option json.gval :=
  match s with
  | EmptyString => None
  | _ => Some (json.gstring s)
  end.

Definition protocol_record (p : protocol.t) : json.gval :=
  descriptor (json.gstring (protocol.Username p)) (json.gstring (protocol.Password p))
    (omitempty (protocol.VHost p))
    (json.gstring (protocol.Hostname p)) (json.gstrings (protocol.Hostnames p))
    (json.gstring (protocol.URI p)) (json.gstrings (protocol.URIs p))
    (json.generic (json.VInt (protocol.Port p))) (json.GBool (protocol.TLS p))
    (omitempty (protocol.Path p)).

Definition protocols_record (b : Builder) (hostname : string) : json.gval :=
  descriptors
    ((λ port, protocol_record (amqpProtocol b hostname port)) <$> ProtocolPorts b !! "amqp")
    (protocol_record (mgmtProtocol b hostname)).

Definition binding_record (b : Builder) (hostname : string) : json.gval :=
  record (json.gstring (dashboardURL b)) (json.gstring (Username b))
    (json.gstring (Password b)) (json.gstring hostname) (json.gstrings (Hostnames b))
    (json.gstring (httpapiuriForBinding b)) (json.gstrings [httpapiuriForBinding b])
    (json.gstring (uriForBinding b hostname))
    (json.gstrings (uriForBinding b <$> Hostnames b))
    (json.gstring (VHost b)) (json.GBool (TLS b)) (protocols_record b hostname).

(** The list [g] holds, in the order of [hosts], the URI made of each host. *)
Definition uris_of (f : string → string) (hosts : list string) (g : option json.gval) : Prop :=
  ∃ us, g = Some (json.GSlice us) ∧ length us = length hosts ∧
    ∀ i host, hosts !! i = Some host → us !! i = Some (json.gstring (f host)).

(** The decoded record agrees with the typed one, field by field.  A
    string tagged omitempty is absent when it is empty. *)
Definition same_string (s : string) (g : option json.gval) : Prop :=
  g = Some (json.GString s).
Definition same_strings (l : list string) (g : option json.gval) : Prop :=
  g = Some (json.GSlice (json.GString <$> l)).
Definition same_bool (x : bool) (g : option json.gval) : Prop :=
  g = Some (json.GBool x).
Definition same_int (i : Z) (g : option json.gval) : Prop :=
  g ≫= json.as_int = Some i.
Definition same_omitempty (s : string) (g : option json.gval) : Prop :=
  match g with
  | Some v => v = json.GString s ∧ s ≠ ""
  | None => s = ""
  end.

Definition same_protocol (p : protocol.t) (g : json.gval) : Prop :=
  same_string (protocol.Username p) (json.key "username" g) ∧
  same_string (protocol.Password p) (json.key "password" g) ∧
  same_omitempty (protocol.VHost p) (json.key "vhost" g) ∧
  same_string (protocol.Hostname p) (json.key "host" g) ∧
  same_strings (protocol.Hostnames p) (json.key "hosts" g) ∧
  same_string (protocol.URI p) (json.key "uri" g) ∧
  same_strings (protocol.URIs p) (json.key "uris" g) ∧
  same_int (protocol.Port p) (json.key "port" g) ∧
  same_bool (protocol.TLS p) (json.key "ssl" g) ∧
  same_omitempty (protocol.Path p) (json.key "path" g).

Definition same_binding (v : binding.t) (g : json.gval) : Prop :=
  same_string (binding.DashboardURL v) (json.key "dashboard_url" g) ∧
  same_string (binding.Username v) (json.key "username" g) ∧
  same_string (binding.Password v) (json.key "password" g) ∧
  same_string (binding.Hostname v) (json.key "hostname" g) ∧
  same_strings (binding.Hostnames v) (json.key "hostnames" g) ∧
  same_string (binding.HTTPAPIURI v) (json.key "http_api_uri" g) ∧
  same_strings (binding.HTTPAPIURIs v) (json.key "http_api_uris" g) ∧
  same_string (binding.URI v) (json.key "uri" g) ∧
  same_strings (binding.URIs v) (json.key "uris" g) ∧
  same_string (binding.VHost v) (json.key "vhost" g) ∧
  same_bool (binding.TLS v) (json.key "ssl" g) ∧
  ∃ ps, json.key "protocols" g = Some (json.GMap ps) ∧
    dom ps = dom (binding.Protocols v) ∧
    ∀ name p, binding.Protocols v !! name = Some p →
      ∃ d, ps !! name = Some d ∧ same_protocol p d.

(** Build returns a record that agrees with the binding it encoded. *)
Definition roundtrip_faithful (b : Builder) : Prop :=
  ∃ v out, bind b = Done v ∧ Build b = Done (json.Ok out) ∧ same_binding v out.

(** Build returns an error value. *)
Definition returns_error (r : exec (json.res json.gval)) : Prop :=
  ∃ err, r = Done (json.Err err).

(** Every string of the configuration is valid UTF-8. *)
Definition valid_strings (b : Builder) : Prop :=
  utf8.ValidString (MgmtDomain b) = true ∧
  Forall (λ h, utf8.ValidString h = true) (Hostnames b) ∧
  utf8.ValidString (VHost b) = true ∧
  utf8.ValidString (Username b) = true ∧
  utf8.ValidString (Password b) = true.

(** The amqp port is an integer that a float64 holds exactly. *)
Definition exact_port (b : Builder) : Prop :=
  ∀ port, ProtocolPorts b !! "amqp" = Some port → - 2 ^ 53 <= port <= 2 ^ 53.

(** The names of the record and of a descriptor. *)
Definition binding_names : gset string :=
  {[ "dashboard_url"; "username"; "password"; "hostname"; "hostnames";
     "http_api_uri"; "http_api_uris"; "uri"; "uris"; "vhost"; "ssl"; "protocols" ]}.

Definition protocol_names : gset string :=
  {[ "username"; "password"; "host"; "hosts"; "uri"; "uris"; "port"; "ssl" ]}.

(** Scenario A of the specification, and inputs on which a claim fails. *)
Definition scenarioA (tls : bool) : Builder :=
  {| MgmtDomain := "10.0.0.5:15672"; Hostnames := ["10.0.0.5"]; VHost := "%2f";
     Username := "u"; Password := "p"; TLS := tls;
     ProtocolPorts := {[ "amqp" := 5672 ]} |}.

Definition noHostnames : Builder :=
  {| MgmtDomain := "10.0.0.5:15672"; Hostnames := []; VHost := "%2f";
     Username := "u"; Password := "p"; TLS := false;
     ProtocolPorts := {[ "amqp" := 5672 ]} |}.

Definition emptyVHost : Builder :=
  {| MgmtDomain := "10.0.0.5:15672"; Hostnames := ["10.0.0.5"]; VHost := "";
     Username := "u"; Password := "p"; TLS := true;
     ProtocolPorts := {[ "amqp" := 5672 ]} |}.

(** A user name that is the single byte 0xFF, and a port of 2^53 + 1. *)
Definition lossy : Builder :=
  {| MgmtDomain := "10.0.0.5:15672"; Hostnames := ["10.0.0.5"]; VHost := "%2f";
     Username := String (chr 0xFF) ""; Password := "p"; TLS := false;
     ProtocolPorts := {[ "amqp" := 9007199254740993 ]} |}.

Definition lossyPort : Builder :=
  {| MgmtDomain := "10.0.0.5:15672"; Hostnames := ["10.0.0.5"]; VHost := "%2f";
     Username := "u"; Password := "p"; TLS := false;
     ProtocolPorts := {[ "amqp" := 9007199254740993 ]} |}.

Definition scenarioB : Builder :=
  {| MgmtDomain := "h1:15672"; Hostnames := ["h1"; "h2"]; VHost := "%2f";
     Username := "u"; Password := "p"; TLS := false;
     ProtocolPorts := {[ "amqp" := 5672; "clustering" := 25672; "http" := 15672 ]} |}.

(** ** The rest of the package *)

(** protocols(), with the entries of ProtocolPorts in the order the range
    loop meets them: Go does not say in which order it ranges over a map. *)
Definition protocolsIn (b : Builder) (entries : list (string * Z)) :
    exec (gmap string protocol.t) :=
  ps ← foldl
         (λ (acc : exec (gmap string protocol.t)) (entry : string * Z),
            ps ← acc;
            if decide (entry.1 = "amqp") then
              p ← addAMQPProtocol b entry.2 false;
              mret (<["amqp" := p]> ps)
            else mret ps)
         (mret ∅) entries;
  mgmt ← addMgmtProtocol b;
  mret (<["management" := mgmt]> ps).

(** A Builder with another ProtocolPorts, with another TLS. *)
Definition withProtocolPorts (b : Builder) (ports : gmap string Z) : Builder :=
  {| MgmtDomain := MgmtDomain b; Hostnames := Hostnames b; VHost := VHost b;
     Username := Username b; Password := Password b; TLS := TLS b;
     ProtocolPorts := ports |}.

Definition withTLS (b : Builder) (tls : bool) : Builder :=
  {| MgmtDomain := MgmtDomain b; Hostnames := Hostnames b; VHost := VHost b;
     Username := Username b; Password := Password b; TLS := tls;
     ProtocolPorts := ProtocolPorts b |}.

(** A member of a record that is a string, or a list of strings, of valid
    UTF-8 (any other member passes). *)
Definition valid_gval (g : json.gval) : Prop :=
  match g with
  | json.GString s => utf8.ValidString s = true
  | _ => True
  end.

Definition valid_member (g : option json.gval) : Prop :=
  match g with
  | Some (json.GSlice l) => Forall valid_gval l
  | Some g => valid_gval g
  | None => True
  end.

(** *** Bind

    Of the cluster Bind sees what two calls of client-go return; they are
    the parameters of the section.  A call returns a value or an error, of
    which Bind prints the message. *)
Module k8s.

Inductive result (A : Type) := ok (a : A) | failed (err : string).
Global Arguments ok {A} a.
Global Arguments failed {A} err.

(** service.Status.LoadBalancer.Ingress *)
Record LoadBalancerIngress := { IP : string; Hostname : string }.
Record Service := { Ingress : list LoadBalancerIngress }.

(** CoreV1().Services(namespace).Get(name, options) *)
Record Clientset := { Get : string → string → result Service }.

End k8s.

(** broker.Config.RabbitMQ: Administrator.Username, Administrator.Password
    and TLS. *)
Record RabbitMQServiceBroker := {
  Administrator_Username : string;
  Administrator_Password : string;
  RabbitMQ_TLS : bool
}.

(** brokerapi.Binding, of which Bind sets Credentials; [GNil] is the nil
    interface of the zero value. *)
Record Binding := { Credentials : json.gval }.

Definition zeroBinding : Binding := {| Credentials := json.GNil |}.

(** The errors Bind returns: one of fmt.Errorf, or the one of Build. *)
Inductive bindError := Errorf (msg : string) | BuildError (err : json.error).

Section Bind.
(** clientsetConfig() and kubernetes.NewForConfig(config) *)
Variable restConfig : Type.
Variable clientsetConfig : k8s.result restConfig.
Variable NewForConfig : restConfig → k8s.result k8s.Clientset.
(** context.Context and brokerapi.BindDetails, which Bind does not read *)
Variables (Ctx BindDetails : Type).

Definition createKubernetesClient : k8s.result k8s.Clientset :=
  match clientsetConfig with
  | k8s.failed err => k8s.failed err
  | k8s.ok config => NewForConfig config
  end.

(** The Builder that Bind fills for the address [serviceIP]. *)
Definition credsBuilder (broker : RabbitMQServiceBroker) (vhost serviceIP : string) : Builder :=
  {| MgmtDomain := serviceIP +:+ ":" +:+ strconv.FormatInt 15672;
     Hostnames := [serviceIP];
     VHost := vhost;
     Username := Administrator_Username broker;
     Password := Administrator_Password broker;
     TLS := RabbitMQ_TLS broker;
     ProtocolPorts := {[ "amqp" := 5672; "clustering" := 25672; "http" := 15672 ]} |}.

Definition Bind (broker : RabbitMQServiceBroker) (ctx : Ctx)
    (instanceID bindingID : string) (details : BindDetails) (asyncAllowed : bool) :
    exec (Binding * option bindError) :=
  let vhost := "%2f" in
  match createKubernetesClient with
  | k8s.failed err =>
    mret (zeroBinding, Some (Errorf ("Failed to create kubernetes client: " +:+ err)))
  | k8s.ok kubernetesClient =>
    match k8s.Get kubernetesClient "rabbitmq-for-kubernetes"
            ("p-" +:+ instanceID +:+ "-rabbitmq") with
    | k8s.failed err =>
      mret (zeroBinding, Some (Errorf ("Failed to retrieve service: " +:+ err)))
    | k8s.ok service =>
      serviceIP ← (if (0 <? length (k8s.Ingress service))%nat then
                     ingress ← index (k8s.Ingress service) 0;
                     mret (k8s.IP ingress)
                   else mret "");
      credentials ← Build (credsBuilder broker vhost serviceIP);
      match credentials with
      | json.Err err => mret (zeroBinding, Some (BuildError err))
      | json.Ok credentials => mret ({| Credentials := credentials |}, None)
      end
    end
  end.
End Bind.

(** The address Bind takes of a service: the IP of its first ingress, the
    empty string when it has none. *)
Definition firstIP (service : k8s.Service) : string :=
  match k8s.Ingress service with
  | ingress :: _ => k8s.IP ingress
  | [] => ""
  end.

(** protocols(), by the amqp entry of ProtocolPorts alone. *)
Definition protocolsOf (b : Builder) (amqp : option Z) : exec (gmap string protocol.t) :=
  ps ← match amqp with
       | Some port => p ← addAMQPProtocol b port false; mret (<["amqp" := p]> ∅)
       | None => mret ∅
       end;
  mgmt ← addMgmtProtocol b;
  mret (<["management" := mgmt]> ps).

(** A cluster with one service, p-1234-rabbitmq, and its ingresses. *)
Definition cluster1234 (ingress : list k8s.LoadBalancerIngress) : k8s.Clientset :=
  {| k8s.Get := λ namespace name,
       if decide (namespace = "rabbitmq-for-kubernetes" ∧ name = "p-1234-rabbitmq")
       then k8s.ok {| k8s.Ingress := ingress |}
       else k8s.failed "not found" |}.

Definition broker1234 : RabbitMQServiceBroker :=
  {| Administrator_Username := "u"; Administrator_Password := "p"; RabbitMQ_TLS := true |}.

(** * Facts *)

(** ** Bytes and strings *)

Lemma chr_byte c : chr (byte c) = c.
Proof. unfold chr, byte. rewrite N2Z.id. apply ascii_N_embedding. Qed.

Lemma byte_range c : 0 <= byte c < 256.
Proof.
  unfold byte. pose proof (N_ascii_bounded c). lia.
Qed.

Lemma byte_chr z : 0 <= z < 256 -> byte (chr z) = z.
Proof.
  intros H. unfold byte, chr. rewrite N_ascii_embedding; lia.
Qed.

(** Boolean tests on [Z] as propositions. *)
Ltac zbool :=
  repeat match goal with
  | H : (_ && _) = true |- _ => apply andb_prop in H; destruct H
  | H : (_ || _) = false |- _ => apply orb_false_elim in H; destruct H
  | H : negb _ = true |- _ => apply negb_true_iff in H
  | H : negb _ = false |- _ => apply negb_false_iff in H
  | H : (_ <? _) = true |- _ => apply Z.ltb_lt in H
  | H : (_ <? _) = false |- _ => apply Z.ltb_ge in H
  | H : (_ <=? _) = true |- _ => apply Z.leb_le in H
  | H : (_ <=? _) = false |- _ => apply Z.leb_gt in H
  | H : (_ =? _) = true |- _ => apply Z.eqb_eq in H
  | H : (_ =? _) = false |- _ => apply Z.eqb_neq in H
  end.

Lemma length_app (a b : string) :
  String.length (a +:+ b) = (String.length a + String.length b)%nat.
Proof. induction a; simpl; [done | by rewrite IHa]. Qed.

Lemma app_assoc' (a b c : string) : (a +:+ b) +:+ c = a +:+ (b +:+ c).
Proof. induction a; simpl; [done | by rewrite IHa]. Qed.

Lemma app_nil_r' (a : string) : a +:+ "" = a.
Proof. induction a; simpl; [done | by rewrite IHa]. Qed.

Lemma sdrop_length n s : (String.length (sdrop n s) <= String.length s)%nat.
Proof.
  revert s; induction n; intros [|c s]; simpl; try lia.
  specialize (IHn s). lia.
Qed.

Lemma sdrop_S_length n c s :
  (String.length (sdrop (S n) (String c s)) <= String.length s)%nat.
Proof. simpl. apply sdrop_length. Qed.

(** ** unicode/utf8 *)

Module utf8_facts.
Import utf8.

Lemma first_cases b :
  0 <= b < 256 ->
  (b < 0x80 /\ first b = as_) \/
  (0x80 <= b /\ first b = xx) \/
  (0xC2 <= b < 0xE0 /\ exists a, first b = lead 2 a) \/
  (0xE0 <= b < 0xF0 /\ exists a, first b = lead 3 a) \/
  (0xF0 <= b < 0xF5 /\ exists a, first b = lead 4 a).
Proof.
  intros Hb. unfold first.
  repeat (case_match; zbool; [ intuition (eauto; lia) | ]).
  right; left. split; [lia | reflexivity].
Qed.

Lemma DecodeRuneInString_decoded s :
  decoded s (DecodeRuneInString s).1 (DecodeRuneInString s).2.
Proof.
  destruct s as [|c0 t0]; [ by constructor | ].
  unfold DecodeRuneInString.
  destruct (first_cases (byte c0) (byte_range c0))
    as [[H0 Hf]|[[H0 Hf]|[[H0 [a Hf]]|[[H0 [a Hf]]|[H0 [a Hf]]]]]]; rewrite Hf.
  - by eapply dec_ascii.
  - by eapply dec_error.
  - destruct t0 as [|c1 t1]; [ eapply dec_error; eauto; lia | ].
    destruct ((byte c1 <? _) || _) eqn:Hacc; [ eapply dec_error; eauto; lia | ]. simpl.
    eapply dec_2; eauto. unfold accepts. rewrite Hf. zbool. 
    apply andb_true_intro; split; apply Z.leb_le; lia.
  - destruct t0 as [|c1 t1]; [ eapply dec_error; eauto; lia | ].
    destruct ((byte c1 <? _) || _) eqn:Hacc; [ eapply dec_error; eauto; lia | ]. simpl.
    destruct t1 as [|c2 t2]; [ eapply dec_error; eauto; lia | ].
    destruct ((byte c2 <? _) || _) eqn:Hc2; [ eapply dec_error; eauto; lia | ]. simpl.
    eapply dec_3; eauto.
    + unfold accepts. rewrite Hf. zbool.
      apply andb_true_intro; split; apply Z.leb_le; lia.
    + unfold cont. zbool. apply andb_true_intro; split; apply Z.leb_le; lia.
  - destruct t0 as [|c1 t1]; [ eapply dec_error; eauto; lia | ].
    destruct ((byte c1 <? _) || _) eqn:Hacc; [ eapply dec_error; eauto; lia | ]. simpl.
    destruct t1 as [|c2 t2]; [ eapply dec_error; eauto; lia | ].
    destruct ((byte c2 <? _) || _) eqn:Hc2; [ eapply dec_error; eauto; lia | ]. simpl.
    destruct t2 as [|c3 t3]; [ eapply dec_error; eauto; lia | ].
    destruct ((byte c3 <? _) || _) eqn:Hc3; [ eapply dec_error; eauto; lia | ]. simpl.
    eapply dec_4; eauto.
    + unfold accepts. rewrite Hf. zbool.
      apply andb_true_intro; split; apply Z.leb_le; lia.
    + unfold cont. zbool. apply andb_true_intro; split; apply Z.leb_le; lia.
    + unfold cont. zbool. apply andb_true_intro; split; apply Z.leb_le; lia.
Qed.

Lemma accepts_cont s0 s1 : accepts s0 s1 = true -> 0x80 <= s1 <= 0xBF.
Proof.
  unfold accepts, first, locb, hicb.
  repeat case_match; simpl in *; try discriminate; simplify_eq; simpl; intros; zbool; lia.
Qed.

Lemma cont_range s : cont s = true -> 0x80 <= s <= 0xBF.
Proof. unfold cont, locb, hicb. intros; zbool; lia. Qed.

Lemma forallb_seqZ (f : Z -> bool) m n x :
  forallb f (seqZ m n) = true -> m <= x < m + n -> f x = true.
Proof.
  intros H Hx. rewrite forallb_forall in H. apply H.
  apply list_elem_of_In, elem_of_seqZ. lia.
Qed.

Lemma check2_ok : forallb (fun s0 => forallb (ok2 s0) conts) (seqZ 0xC2 30) = true.
Proof. vm_cast_no_check (eq_refl true). Qed.
Lemma check3_ok : forallb (fun s0 => forallb (ok3' s0) conts) (seqZ 0xE0 16) = true.
Proof. vm_cast_no_check (eq_refl true). Qed.
Lemma check4_ok : forallb (fun s0 => forallb (ok4' s0) conts) (seqZ 0xF0 5) = true.
Proof. vm_cast_no_check (eq_refl true). Qed.

Lemma implb_elim (a c : bool) : implb a c = true -> a = true -> c = true.
Proof. by destruct a, c. Qed.

Lemma EncodeRune_rune2 s0 s1 :
  0xC2 <= s0 < 0xE0 -> accepts s0 s1 = true ->
  EncodeRune (rune2 s0 s1) = bytes2 s0 s1.
Proof.
  intros H0 H1. pose proof (accepts_cont _ _ H1) as Hc.
  apply String.eqb_eq.
  refine (implb_elim _ _ _ H1).
  refine (forallb_seqZ (ok2 s0) 0x80 64 s1 _ _); [ | lia ].
  refine (forallb_seqZ (fun s0 => forallb (ok2 s0) conts) 0xC2 30 s0 check2_ok _); lia.
Qed.

Lemma EncodeRune_rune3 s0 s1 s2 :
  0xE0 <= s0 < 0xF0 -> accepts s0 s1 = true -> cont s2 = true ->
  EncodeRune (rune3 s0 s1 s2) = bytes3 s0 s1 s2.
Proof.
  intros H0 H1 H2. pose proof (accepts_cont _ _ H1) as Hc.
  apply cont_range in H2.
  apply String.eqb_eq.
  refine (forallb_seqZ (ok3 s0 s1) 0x80 64 s2 _ _); [ | lia ].
  refine (implb_elim _ _ _ H1).
  refine (forallb_seqZ (ok3' s0) 0x80 64 s1 _ _); [ | lia ].
  refine (forallb_seqZ (fun s0 => forallb (ok3' s0) conts) 0xE0 16 s0 check3_ok _); lia.
Qed.

Lemma EncodeRune_rune4 s0 s1 s2 s3 :
  0xF0 <= s0 < 0xF5 -> accepts s0 s1 = true -> cont s2 = true -> cont s3 = true ->
  EncodeRune (rune4 s0 s1 s2 s3) = bytes4 s0 s1 s2 s3.
Proof.
  intros H0 H1 H2 H3. pose proof (accepts_cont _ _ H1) as Hc.
  apply cont_range in H2. apply cont_range in H3.
  apply String.eqb_eq.
  refine (forallb_seqZ (ok4 s0 s1 s2) 0x80 64 s3 _ _); [ | lia ].
  refine (forallb_seqZ (fun s2 => forallb (ok4 s0 s1 s2) conts) 0x80 64 s2 _ _); [ | lia ].
  refine (implb_elim _ _ _ H1).
  refine (forallb_seqZ (ok4' s0) 0x80 64 s1 _ _); [ | lia ].
  refine (forallb_seqZ (fun s0 => forallb (ok4' s0) conts) 0xF0 5 s0 check4_ok _); lia.
Qed.

Lemma first_as b : 0 <= b < 0x80 -> first b = as_.
Proof. intros H. unfold first. case_match; zbool; [done | lia]. Qed.

Lemma first_lead2 b : 0xC2 <= b < 0xE0 -> first b = lead 2 {| lo := locb; hi := hicb |}.
Proof. intros H. unfold first. repeat (case_match; zbool; try lia). done. Qed.

Lemma first_lead3 b : 0xE0 <= b < 0xF0 -> exists a, first b = lead 3 a.
Proof. intros H. unfold first. repeat (case_match; zbool; try lia); eauto. Qed.

Lemma first_lead4 b : 0xF0 <= b < 0xF5 -> exists a, first b = lead 4 a.
Proof. intros H. unfold first. repeat (case_match; zbool; try lia); eauto. Qed.

Lemma accepts_test s0 s1 sz a :
  first s0 = lead sz a -> accepts s0 s1 = true ->
  (s1 <? lo a) || (hi a <? s1) = false.
Proof.
  unfold accepts. intros -> H. zbool.
  apply orb_false_intro; [ apply Z.ltb_ge | apply Z.ltb_ge ]; lia.
Qed.

Lemma cont_test s : cont s = true -> (s <? locb) || (hicb <? s) = false.
Proof.
  unfold cont. intros H. zbool.
  apply orb_false_intro; [ apply Z.ltb_ge | apply Z.ltb_ge ]; lia.
Qed.

(** A valid encoding of two or more bytes is decoded from its own bytes,
    whatever follows them. *)
Lemma decoded_Decode s r n :
  decoded s r n -> (1 < n)%nat -> DecodeRuneInString s = (r, n).
Proof.
  intros [ | | |c0 c1 t Hs H0 Ha Hr|c0 c1 c2 t Hs H0 Ha H2 Hr
          |c0 c1 c2 c3 t Hs H0 Ha H2 H3 Hr] Hn; try lia; subst s r.
  - unfold DecodeRuneInString.
    rewrite (first_lead2 _ H0) in *.
    pose proof (accepts_test _ _ _ _ (first_lead2 _ H0) Ha) as ->. done.
  - unfold DecodeRuneInString.
    destruct (first_lead3 _ H0) as [a Hf]. rewrite Hf.
    rewrite (accepts_test _ _ _ _ Hf Ha), (cont_test _ H2). done.
  - unfold DecodeRuneInString.
    destruct (first_lead4 _ H0) as [a Hf]. rewrite Hf.
    rewrite (accepts_test _ _ _ _ Hf Ha), (cont_test _ H2), (cont_test _ H3). done.
Qed.

(** What the encoder and the decoder need to know of a rune of two or
    more bytes at the head of [s]. *)
Lemma Decode_multibyte s r n :
  DecodeRuneInString s = (r, n) -> (1 < n)%nat ->
  EncodeRune r = stake n s /\
  String.length (stake n s) = n /\
  (forall X, DecodeRuneInString (stake n s +:+ X) = (r, n)) /\
  (forall X, sdrop n (stake n s +:+ X) = X) /\
  (String.length (sdrop n s) < String.length s)%nat /\
  exists c t, stake n s = String c t /\ 0x80 <= byte c.
Proof.
  intros Hd Hn. pose proof (DecodeRuneInString_decoded s) as H.
  rewrite Hd in H. simpl in H. clear Hd.
  destruct H as [ | | |c0 c1 t Hs H0 Ha Hr|c0 c1 c2 t Hs H0 Ha H2 Hr
          |c0 c1 c2 c3 t Hs H0 Ha H2 H3 Hr]; try lia; subst s r.
  - rewrite (EncodeRune_rune2 _ _ H0 Ha). unfold bytes2. rewrite !chr_byte.
    split_and!; [ done | done | | done | simpl; lia | eexists _, _; split; [done | lia] ].
    intros X. apply decoded_Decode; [ | lia ]. by eapply dec_2.
  - rewrite (EncodeRune_rune3 _ _ _ H0 Ha H2). unfold bytes3, bytes2. rewrite !chr_byte.
    split_and!; [ done | done | | done | simpl; lia | eexists _, _; split; [done | lia] ].
    intros X. apply decoded_Decode; [ | lia ]. by eapply dec_3.
  - rewrite (EncodeRune_rune4 _ _ _ _ H0 Ha H2 H3). unfold bytes4, bytes3, bytes2.
    rewrite !chr_byte.
    split_and!; [ done | done | | done | simpl; lia | eexists _, _; split; [done | lia] ].
    intros X. apply decoded_Decode; [ | lia ]. by eapply dec_4.
Qed.

(** At a byte of 0x80 or more the width is 1 (no valid encoding, the rune
    is RuneError) or at least 2. *)
Lemma Decode_nonascii c t r n :
  0x80 <= byte c -> DecodeRuneInString (String c t) = (r, n) ->
  (n = 1%nat /\ r = RuneError) \/ (1 < n)%nat.
Proof.
  intros Hc Hd. pose proof (DecodeRuneInString_decoded (String c t)) as H.
  rewrite Hd in H. simpl in H.
  destruct H; simplify_eq; try lia; auto.
Qed.

End utf8_facts.

(** ** encoding/json: string literals *)

Module json_string.
Import json utf8_facts.

Lemma unquote_dquote fuel X : unquote (S fuel) (String dquote X) = Ok ("", X).
Proof. reflexivity. Qed.

Lemma unquote_unfold fuel c t :
  unquote (S fuel) (String c t) =
  ltac:(let body := eval cbv beta iota delta [unquote] in (unquote (S fuel) (String c t)) in
        let body := eval fold unquote in body in exact body).
Proof. reflexivity. Qed.

Lemma unquote_safe fuel c X :
  htmlSafeSet (byte c) = true ->
  unquote (S fuel) (String c X) = prepend (String c "") (unquote fuel X).
Proof.
  intros H. unfold htmlSafeSet in H. zbool.
  rewrite unquote_unfold. cbv zeta.
  rewrite (proj2 (Z.eqb_neq _ _)) by lia.
  rewrite (proj2 (Z.eqb_neq _ _)) by lia.
  rewrite (proj2 (Z.ltb_ge _ _)) by lia.
  rewrite (proj2 (Z.ltb_lt _ _)) by (unfold utf8.RuneSelf; lia).
  reflexivity.
Qed.

Lemma unquote_multibyte fuel c t :
  0x80 <= byte c ->
  unquote (S fuel) (String c t) =
  let '(rr, size) := utf8.DecodeRuneInString (String c t) in
  prepend (utf8.EncodeRune rr) (unquote fuel (sdrop size (String c t))).
Proof.
  intros H.
  rewrite unquote_unfold. cbv zeta.
  rewrite (proj2 (Z.eqb_neq _ _)) by lia.
  rewrite (proj2 (Z.eqb_neq _ _)) by lia.
  rewrite (proj2 (Z.ltb_ge _ 0x20)) by lia.
  rewrite (proj2 (Z.ltb_ge _ _)) by (unfold utf8.RuneSelf; lia).
  reflexivity.
Qed.

Lemma unquote_multibyte_app fuel p X :
  (exists c t, p = String c t /\ 0x80 <= byte c) ->
  unquote (S fuel) (p +:+ X) =
  let '(rr, size) := utf8.DecodeRuneInString (p +:+ X) in
  prepend (utf8.EncodeRune rr) (unquote fuel (sdrop size (p +:+ X))).
Proof. intros (c & t & -> & Hc). by apply unquote_multibyte. Qed.

Lemma unquote_escapeByte fuel c X :
  byte c < 0x80 -> htmlSafeSet (byte c) = false ->
  unquote (S fuel) (escapeByte c +:+ X) = prepend (String c "") (unquote fuel X).
Proof.
  destruct c as [b0 b1 b2 b3 b4 b5 b6 b7].
  destruct b7; [ intros H; destruct b0, b1, b2, b3, b4, b5, b6; vm_compute in H; discriminate | ].
  intros _.
  destruct b0, b1, b2, b3, b4, b5, b6; intros H;
    try (vm_compute in H; discriminate H); reflexivity.
Qed.

Lemma unquote_ufffd fuel X :
  unquote (S fuel) (ufffd +:+ X) =
  prepend (utf8.EncodeRune utf8.RuneError) (unquote fuel X).
Proof. reflexivity. Qed.

Lemma unquote_u202x fuel r X :
  (r =? 0x2028) || (r =? 0x2029) = true ->
  unquote (S fuel) (String backslash ("u202" +:+ String (hex (Z.land r 0xF)) "") +:+ X) =
  prepend (utf8.EncodeRune r) (unquote fuel X).
Proof.
  intros H. apply orb_prop in H as [H|H]; apply Z.eqb_eq in H; subst r; reflexivity.
Qed.

Lemma prepend_Ok p str t : prepend p (Ok (str, t)) = Ok (p +:+ str, t).
Proof. reflexivity. Qed.

(** Reading back what [stringLoop] wrote gives the coerced string. *)
Lemma unquote_stringLoop n : forall s fuel X,
  (String.length s <= n)%nat ->
  (String.length (stringLoop n s) < fuel)%nat ->
  unquote fuel (stringLoop n s +:+ String dquote X) = Ok (coerceLoop n s, X).
Proof.
  induction n as [|n IH]; intros s fuel X Hs Hfuel.
  { destruct s; simpl in Hs; [ | lia ]. destruct fuel; [ simpl in Hfuel; lia | done ]. }
  destruct s as [|c t].
  { destruct fuel; [ simpl in Hfuel; lia | done ]. }
  simpl in Hs.
  destruct fuel as [|fuel]; [ lia | ].
  cbn [stringLoop coerceLoop] in *.
  destruct (byte c <? utf8.RuneSelf) eqn:Hc.
  - (* an ASCII byte *)
    apply Z.ltb_lt in Hc. unfold utf8.RuneSelf in Hc.
    rewrite length_app in Hfuel. rewrite app_assoc'.
    destruct (htmlSafeSet (byte c)) eqn:Hsafe.
    + simpl in Hfuel. simpl String.append.
      rewrite (unquote_safe _ _ _ Hsafe), IH by lia. done.
    + assert (0 < String.length (escapeByte c))%nat by (unfold escapeByte; simpl; lia).
      rewrite (unquote_escapeByte _ _ _ Hc Hsafe), IH by lia. done.
  - apply Z.ltb_ge in Hc. unfold utf8.RuneSelf in Hc.
    destruct (utf8.DecodeRuneInString (String c t)) as [r size] eqn:Hd.
    destruct (Decode_nonascii _ _ _ _ Hc Hd) as [[-> ->]|Hsize].
    + (* no valid encoding *)
      simpl in Hfuel |- *. rewrite IH by lia. done.
    + destruct (Decode_multibyte _ _ _ Hd Hsize)
        as (Henc & Hlen & Hpre & Hdrop & Hshort & Hhead).
      replace (size =? 1)%nat with false in * by (symmetry; apply Nat.eqb_neq; lia).
      rewrite andb_false_r in *.
      simpl in Hshort.
      destruct ((r =? 0x2028) || (r =? 0x2029)) eqn:Hls;
        rewrite length_app in Hfuel; rewrite app_assoc'.
      * rewrite (unquote_u202x _ _ _ Hls), IH, Henc; [ done | lia | ].
        simpl in Hfuel. lia.
      * rewrite (unquote_multibyte_app _ _ _ Hhead), Hpre, Hdrop, IH, Henc;
          [ done | lia | lia ].
Qed.

Lemma decode_encodeString s X :
  unquote (String.length (stringLoop (String.length s) s +:+ String dquote X))
          (stringLoop (String.length s) s +:+ String dquote X) = Ok (coerce s, X).
Proof.
  apply unquote_stringLoop; [ done | ]. rewrite length_app. simpl. lia.
Qed.

End json_string.

(** ** encoding/json: numbers *)

Module json_number.
Import json.

Lemma uint_acc_pos d : forall p, uint_acc d (Npos p) = Npos (Pos.of_uint_acc d p).
Proof.
  induction d; intros p; simpl; try done;
    match goal with |- uint_acc _ ?a = _ =>
      match type of (IHd 1%positive) with _ =>
        let q := fresh in
        evar (q : positive); replace a with (Npos q); subst q; [ apply IHd | lia ]
      end
    end.
Qed.

Lemma uint_acc_0 d : uint_acc d 0 = Pos.of_uint d.
Proof. induction d; simpl; try done; apply uint_acc_pos. Qed.

Lemma uint_acc_to_uint p : uint_acc (Pos.to_uint p) 0 = Npos p.
Proof. rewrite uint_acc_0. apply Unsigned.of_to. Qed.

Lemma digits_end X acc n : ends_number X -> digits X acc n = (acc, n, X).
Proof. destruct X as [|c t]; [done | ]. simpl. by intros [-> _]. Qed.

Lemma digits_string_of_uint d : forall acc n X,
  ends_number X ->
  exists n', digits (NilEmpty.string_of_uint d +:+ X) acc n = (uint_acc d acc, n', X).
Proof.
  induction d; intros acc n X HX; simpl;
    try (destruct (IHd (acc * 10 + 0)%N (S n) X HX) as [n' Hn']; eauto; fail).
  rewrite digits_end; eauto.
Qed.

Lemma exponent_end neg m e X :
  ends_number X -> exponent neg m e X = convertNumber neg m e X.
Proof.
  destruct X as [|c t]; [done | ]. simpl. intros (_ & _ & H1 & H2).
  unfold exponent.
  rewrite (proj2 (Z.eqb_neq _ _) H1), (proj2 (Z.eqb_neq _ _) H2). done.
Qed.

Lemma fraction_end neg m X :
  ends_number X -> fraction neg m X = convertNumber neg m 0 X.
Proof.
  intros HX. rewrite <- exponent_end by done.
  destruct X as [|c t]; [done | ]. destruct HX as (_ & H1 & _).
  unfold fraction. by rewrite (proj2 (Z.eqb_neq _ _) H1).
Qed.

(** The digits of a positive number start with a digit other than 0. *)
Lemma number_to_uint neg p X :
  ends_number X ->
  exists c t, NilEmpty.string_of_uint (Pos.to_uint p) +:+ X = String c t /\
    byte c <> 0x2D /\
    (if byte c =? 0x30 then fraction neg 0%N t
     else if isDigit c then
       let '(m, _, t) := digits (String c t) 0%N 0%nat in fraction neg m t
     else Err SyntaxError) = convertNumber neg (Npos p) 0 X.
Proof.
  intros HX.
  pose proof (Unsigned.to_uint_nonnil p) as Hnil.
  pose proof (Unsigned.to_of (Pos.to_uint p)) as Hnorm.
  rewrite Unsigned.of_to in Hnorm. simpl in Hnorm.
  pose proof (uint_acc_to_uint p) as Hacc.
  destruct (digits_string_of_uint (Pos.to_uint p) 0%N 0%nat X HX) as [n Hn].
  rewrite Hacc in Hn.
  destruct (Pos.to_uint p) as [|d|d|d|d|d|d|d|d|d|d] eqn:Hd; [ done | | .. ];
    [ exfalso; unfold unorm in Hnorm; simpl in Hnorm;
      destruct (nzhead d) eqn:Hz; try discriminate Hnorm;
      [ injection Hnorm as ->; by apply (Unsigned.to_uint_nonzero p)
      | exact (nzhead_nonzero _ _ Hz) ] | .. ];
    (eexists _, _; split; [ simpl; reflexivity | ]; split; [ by vm_compute | ];
     change (byte _ =? 48) with false; cbv iota;
     match goal with |- context [isDigit ?c] => change (isDigit c) with true end;
     cbv iota; simpl in Hn |- *; rewrite Hn; by apply fraction_end).
Qed.

Lemma number_FormatInt i X :
  ends_number X ->
  number (strconv.FormatInt i +:+ X) =
  convertNumber (i <? 0) (Z.to_N (Z.abs i)) 0 X.
Proof.
  intros HX. unfold strconv.FormatInt.
  destruct i as [|p|p]; simpl Z.to_int; simpl Z.abs; simpl Z.to_N; simpl Z.ltb.
  - simpl. by apply fraction_end.
  - unfold NilZero.string_of_int, NilZero.string_of_uint.
    destruct (number_to_uint false p X HX) as (c & t & Hs & Hc & H).
    pose proof (Unsigned.to_uint_nonnil p).
    assert (NilZero.string_of_uint (Pos.to_uint p) = NilEmpty.string_of_uint (Pos.to_uint p))
      as Heq by (by destruct (Pos.to_uint p)).
    unfold NilZero.string_of_uint in Heq. rewrite Heq, Hs.
    unfold number. rewrite (proj2 (Z.eqb_neq _ _) Hc). done.
  - unfold NilZero.string_of_int.
    destruct (number_to_uint true p X HX) as (c & t & Hs & Hc & H).
    pose proof (Unsigned.to_uint_nonnil p).
    assert (NilZero.string_of_uint (Pos.to_uint p) = NilEmpty.string_of_uint (Pos.to_uint p))
      as Heq by (by destruct (Pos.to_uint p)).
    rewrite Heq. simpl String.append. rewrite Hs. 
    unfold number. change (byte "-" =? 45) with true. cbv iota. done.
Qed.

End json_number.

(** ** strconv: the float64 of an int *)

Module float64_facts.
Import strconv.

Lemma digits2_pos_bounds p :
  2 ^ (Z.pos (digits2_pos p) - 1) <= Z.pos p < 2 ^ Z.pos (digits2_pos p).
Proof.
  induction p as [p IH|p IH|]; simpl digits2_pos; [ | | simpl; lia ];
    rewrite Pos2Z.inj_succ;
    replace (Z.succ (Z.pos (digits2_pos p)) - 1) with (Z.succ (Z.pos (digits2_pos p) - 1)) by lia;
    rewrite !Z.pow_succ_r by lia; lia.
Qed.

Lemma Zdigits2_le m k : 0 <= m < 2 ^ k -> 0 <= k -> 0 <= Zdigits2 m <= k.
Proof.
  intros [H0 Hm] Hk. destruct m as [|p|p]; simpl; [ lia | | lia ].
  pose proof (digits2_pos_bounds p) as [Hlo _].
  split; [ lia | ].
  destruct (Z_lt_le_dec k (Z.pos (digits2_pos p))) as [Hlt|]; [ | lia ].
  exfalso. assert (2 ^ k <= 2 ^ (Z.pos (digits2_pos p) - 1)) by (apply Z.pow_le_mono_r; lia).
  lia.
Qed.

Lemma iter_xO p k : Z.pos (Pos.iter xO p k) = Z.pos p * 2 ^ Z.pos k.
Proof.
  induction k as [|k IH] using Pos.peano_ind.
  - simpl. lia.
  - rewrite Pos.iter_succ, Pos2Z.inj_succ, Z.pow_succ_r, Pos2Z.inj_xO, IH by lia. lia.
Qed.

Lemma digits2_iter_xO p k :
  digits2_pos (Pos.iter xO p k) = (digits2_pos p + k)%positive.
Proof.
  induction k as [|k IH] using Pos.peano_ind.
  - simpl. lia.
  - rewrite Pos.iter_succ. simpl. rewrite IH. lia.
Qed.

Lemma iter_pos_inv {A} (f : A -> A) (P : A -> Prop) :
  (forall x, P x -> P (f x)) -> forall n x, P x -> P (SpecFloat.iter_pos f n x).
Proof.
  intros Hf. induction n as [n IH|n IH|]; intros x Hx; simpl; auto.
Qed.

(** Shifting right keeps a mantissa between 0 and what it was. *)
Lemma shr_1_bounds b mrs : 0 <= shr_m mrs <= b -> 0 <= shr_m (shr_1 mrs) <= b.
Proof.
  destruct mrs as [m r s]. simpl. destruct m as [|[p|p|]|[p|p|]]; simpl; lia.
Qed.

Lemma shr_bounds b mrs e n :
  0 <= shr_m mrs <= b ->
  0 <= shr_m (shr mrs e n).1 <= b /\ (shr mrs e n).2 = Z.max e (e + n).
Proof.
  intros H. unfold shr. destruct n as [|p|p]; simpl; [ split; [done | lia] | | split; [done | lia] ].
  split; [ | lia ].
  apply (iter_pos_inv shr_1 (fun mrs => 0 <= shr_m mrs <= b)); [ apply shr_1_bounds | done ].
Qed.

Lemma shr_m_shr_record_of_loc m l : shr_m (shr_record_of_loc m l) = m.
Proof. by destruct l as [|[]]. Qed.

Lemma shr_fexp_bounds b k m e l :
  0 <= m <= b -> b < 2 ^ k -> 0 <= k ->
  let r := shr_fexp prec emax m e l in
  0 <= shr_m r.1 <= b /\ e <= r.2 <= Z.max e (Z.max (k + e - 53) (-1074)).
Proof.
  intros Hm Hb Hk r. subst r. unfold shr_fexp.
  destruct (shr_bounds b (shr_record_of_loc m l) e
              (fexp prec emax (Zdigits2 m + e) - e)) as [H1 H2].
  { by rewrite shr_m_shr_record_of_loc. }
  split; [ done | ]. rewrite H2.
  pose proof (Zdigits2_le m k ltac:(lia) Hk).
  unfold fexp, emin, prec, emax. lia.
Qed.

Lemma round_nearest_even_bounds m l :
  0 <= m -> m <= round_nearest_even m l <= m + 1.
Proof.
  intros Hm. destruct l as [|[]]; simpl; try lia. destruct (Z.even m); lia.
Qed.

(** Rounding a mantissa below 2^64 at an exponent in [-1074, 0] does not
    overflow. *)
Lemma binary_round_aux_finite sx mx ex l :
  0 <= mx < 2 ^ 64 -> ex <= 0 ->
  match binary_round_aux prec emax sx mx ex l with
  | S754_infinity _ | S754_nan => False
  | _ => True
  end.
Proof.
  intros Hm He. unfold binary_round_aux.
  pose proof (shr_fexp_bounds (2 ^ 64 - 1) 64 mx ex l ltac:(lia) ltac:(lia) ltac:(lia)) as H1.
  destruct (shr_fexp prec emax mx ex l) as [mrs' e']. simpl in H1.
  pose proof (round_nearest_even_bounds (shr_m mrs') (loc_of_shr_record mrs') ltac:(lia)) as Hr.
  pose proof (shr_fexp_bounds (2 ^ 64) 65
                (round_nearest_even (shr_m mrs') (loc_of_shr_record mrs')) e' loc_Exact
                ltac:(lia) ltac:(lia) ltac:(lia)) as H2.
  destruct (shr_fexp prec emax _ e' loc_Exact) as [mrs'' e'']. simpl in H2.
  destruct (shr_m mrs'') as [|p|p]; [ done | | lia ].
  rewrite (proj2 (Z.leb_le _ _)); [ done | ]. unfold emax, prec. lia.
Qed.

Lemma binary_round_finite sx m :
  Z.pos m < 2 ^ 64 ->
  match binary_round prec emax sx m 0 with
  | S754_infinity _ | S754_nan => False
  | _ => True
  end.
Proof.
  intros Hm. unfold binary_round, shl_align.
  destruct (fexp prec emax (Z.pos (digits2_pos m) + 0) - 0) as [|k|k] eqn:Hk;
    try (apply binary_round_aux_finite; lia).
  apply binary_round_aux_finite.
  - rewrite iter_xO. pose proof (digits2_pos_bounds m) as [_ Hd].
    revert Hk. unfold fexp, emin, prec, emax. intros Hk.
    assert (Z.pos (digits2_pos m) + Z.pos k = 53) as Hs by lia.
    assert (Z.pos m * 2 ^ Z.pos k < 2 ^ 53).
    { rewrite <- Hs, Z.pow_add_r by lia. apply Z.mul_lt_mono_pos_r; lia. }
    lia.
  - revert Hk. unfold fexp, emin, prec, emax. lia.
Qed.

Lemma atof64_int neg p :
  atof64 neg (Npos p) 0 =
  match binary_round prec emax neg p 0 with
  | S754_infinity _ | S754_nan => None
  | f => Some f
  end.
Proof.
  unfold atof64. change (0 <=? 0) with true. cbv iota.
  change (Z.to_pos (10 ^ 0)) with 1%positive. rewrite Pos.mul_1_r.
  by destruct (binary_round prec emax neg p 0).
Qed.

Lemma float64_of_int_pos p :
  float64_of_int (Z.pos p) = atof64 false (Npos p) 0.
Proof. reflexivity. Qed.

Lemma float64_of_int_neg p :
  float64_of_int (Z.neg p) = atof64 true (Npos p) 0.
Proof. reflexivity. Qed.

Theorem float64_of_int_total i : int_range i -> is_Some (float64_of_int i).
Proof.
  unfold int_range, IntSize. intros Hi.
  destruct i as [|p|p]; [ by eexists | | ].
  - rewrite float64_of_int_pos, atof64_int.
    pose proof (binary_round_finite false p ltac:(lia)) as H.
    destruct (binary_round _ _ _ _ _); try done; by eexists.
  - rewrite float64_of_int_neg, atof64_int.
    pose proof (binary_round_finite true p ltac:(lia)) as H.
    destruct (binary_round _ _ _ _ _); try done; by eexists.
Qed.

(** A mantissa that is canonical for its exponent is not rounded. *)
Lemma binary_round_aux_exact sx m e :
  fexp prec emax (Z.pos (digits2_pos m) + e) = e -> e <= emax - prec ->
  binary_round_aux prec emax sx (Z.pos m) e loc_Exact = S754_finite sx m e.
Proof.
  intros Hc He. unfold binary_round_aux, shr_fexp. simpl Zdigits2.
  rewrite Hc, Z.sub_diag. simpl. rewrite Hc, Z.sub_diag. simpl.
  by rewrite (proj2 (Z.leb_le _ _) He).
Qed.

Lemma binary_round_exact sx p :
  Z.pos p < 2 ^ 53 ->
  exists m e, binary_round prec emax sx p 0 = S754_finite sx m e /\
    e <= 0 /\ Z.pos m = Z.pos p * 2 ^ (- e).
Proof.
  intros Hp. unfold binary_round, shl_align.
  pose proof (Zdigits2_le (Z.pos p) 53 ltac:(lia) ltac:(lia)) as Hd. simpl in Hd.
  assert (fexp prec emax (Z.pos (digits2_pos p) + 0) = Z.pos (digits2_pos p) - 53) as Hf
    by (unfold fexp, emin, prec, emax; lia).
  rewrite Hf.
  destruct (Z.pos (digits2_pos p) - 53 - 0) as [|k|k] eqn:Hk; [ | lia | ].
  - exists p, 0. rewrite binary_round_aux_exact; [ | rewrite Hf; lia | unfold emax, prec; lia ].
    split; [ done | ]. simpl. lia.
  - exists (Pos.iter xO p k), (Z.pos (digits2_pos p) - 53).
    rewrite binary_round_aux_exact.
    + split; [ done | ]. split; [ lia | ]. rewrite iter_xO. f_equal. f_equal. lia.
    + rewrite digits2_iter_xO. unfold fexp, emin, prec, emax. lia.
    + unfold emax, prec. lia.
Qed.

Lemma int_of_float64_finite sx m e p :
  e <= 0 -> Z.pos m = Z.pos p * 2 ^ (- e) ->
  int_of_float64 (S754_finite sx m e) = Some (if sx then Z.neg p else Z.pos p).
Proof.
  intros He Hm. unfold int_of_float64.
  assert (0 < 2 ^ (- e)) by (apply Z.pow_pos_nonneg; lia).
  destruct (0 <=? e) eqn:H0.
  - apply Z.leb_le in H0. assert (e = 0) as -> by lia. simpl in Hm |- *.
    rewrite Z.mul_1_r in Hm. rewrite Z.pow_0_r, Z.mul_1_r, Hm. by destruct sx.
  - rewrite Hm, Z.mod_mul, Z.eqb_refl, Z.div_mul by lia. by destruct sx.
Qed.

(** An int of magnitude at most 2^53 is read back as itself. *)
Theorem float64_of_int_exact i :
  - 2 ^ 53 <= i <= 2 ^ 53 ->
  exists f, float64_of_int i = Some f /\ int_of_float64 f = Some i.
Proof.
  intros Hi.
  destruct (Z.eq_dec i (2 ^ 53)) as [->|]; [ by eexists | ].
  destruct (Z.eq_dec i (- 2 ^ 53)) as [->|]; [ by eexists | ].
  destruct i as [|p|p]; [ by eexists | | ].
  - rewrite float64_of_int_pos, atof64_int.
    destruct (binary_round_exact false p ltac:(lia)) as (m & e & -> & He & Hm).
    eexists; split; [ done | ]. by rewrite (int_of_float64_finite _ _ _ p).
  - rewrite float64_of_int_neg, atof64_int.
    destruct (binary_round_exact true p ltac:(lia)) as (m & e & -> & He & Hm).
    eexists; split; [ done | ]. by rewrite (int_of_float64_finite _ _ _ p).
Qed.

End float64_facts.

(** ** encoding/json: what Marshal writes, Unmarshal reads *)

Module json_roundtrip.
Import json json_string json_number.

Lemma delim_ends_number X : delim X -> ends_number X.
Proof.
  destruct X as [|c t]; [done | ]. simpl. unfold isDigit.
  intros [H|[H|H]]; rewrite H; split_and!; done.
Qed.

Lemma encodeString_length s : (2 <= String.length (encodeString s))%nat.
Proof. unfold encodeString. simpl. rewrite length_app. simpl. lia. Qed.

Lemma parses_string s : parses (encodeString s) (GString (coerce s)).
Proof.
  intros fuel X _ Hfuel. pose proof (encodeString_length s).
  destruct fuel as [|fuel]; [ lia | ].
  unfold encodeString. simpl String.append. rewrite app_assoc'. simpl String.append.
  change (decodeValue (S fuel) (String dquote ?t))
    with (let* (str, t') := unquote (String.length t) t in Ok (GString str, t')).
  by rewrite decode_encodeString.
Qed.

Lemma parses_bool (b : bool) : parses (if b then "true" else "false") (GBool b).
Proof.
  intros fuel X _ Hfuel. destruct b; (destruct fuel as [|fuel]; [ simpl in Hfuel; lia | ]); reflexivity.
Qed.

Lemma parses_null : parses "null" GNil.
Proof.
  intros fuel X _ Hfuel. (destruct fuel as [|fuel]; [ simpl in Hfuel; lia | ]); reflexivity.
Qed.

Lemma decodeValue_number fuel c t :
  isDigit c = true \/ byte c = 0x2D ->
  decodeValue (S fuel) (String c t) = number (String c t).
Proof.
  intros H. 
  destruct c as [[] [] [] [] [] [] [] []];
    try (exfalso; destruct H as [H|H]; vm_compute in H; discriminate H); reflexivity.
Qed.

Lemma FormatInt_head i X :
  exists c t, strconv.FormatInt i +:+ X = String c t /\ (isDigit c = true \/ byte c = 0x2D).
Proof.
  unfold strconv.FormatInt. destruct i as [|p|p]; simpl Z.to_int.
  - eexists _, _. split; [ reflexivity | by left ].
  - pose proof (Unsigned.to_uint_nonnil p).
    unfold NilZero.string_of_int, NilZero.string_of_uint.
    destruct (Pos.to_uint p); [ done | .. ];
      (eexists _, _; split; [ simpl; reflexivity | by left ]).
  - eexists _, _. split; [ simpl; reflexivity | by right ].
Qed.

Lemma FormatInt_length i : (1 <= String.length (strconv.FormatInt i))%nat.
Proof.
  destruct (FormatInt_head i "") as (c & t & H & _).
  rewrite app_nil_r' in H. rewrite H. simpl. lia.
Qed.

Lemma parses_int i f :
  strconv.float64_of_int i = Some f -> parses (strconv.FormatInt i) (GFloat64 f).
Proof.
  intros Hf fuel X HX Hfuel. pose proof (FormatInt_length i).
  destruct fuel as [|fuel]; [ lia | ].
  destruct (FormatInt_head i X) as (c & t & Hs & Hc).
  rewrite Hs, (decodeValue_number _ _ _ Hc), <- Hs.
  rewrite number_FormatInt by by apply delim_ends_number.
  unfold convertNumber. unfold strconv.float64_of_int in Hf. by rewrite Hf.
Qed.

Lemma parses_nonempty text g : parses text g -> (1 <= String.length text)%nat.
Proof.
  intros H. destruct text; simpl; [ | lia ].
  specialize (H 0%nat "" I (le_n 0)). discriminate H.
Qed.

Lemma sjoin_cons sep x y l :
  sjoin sep (x :: y :: l) = x +:+ sep +:+ sjoin sep (y :: l).
Proof. reflexivity. Qed.

Lemma decodeArray_unfold fuel acc s :
  decodeArray (S fuel) acc s =
  let* (v, t) := decodeValue fuel s in
  match skipSpace t with
  | String c t =>
    if byte c =? 0x2C then decodeArray fuel (acc ++ [v]) t
    else if byte c =? 0x5D then Ok (GSlice (acc ++ [v]), t)
    else Err SyntaxError
  | EmptyString => Err SyntaxError
  end.
Proof. reflexivity. Qed.

(** The elements of an array, up to its closing bracket. *)
Lemma decodeArray_elements ts gs :
  Forall2 parses ts gs -> ts <> [] ->
  forall fuel acc X,
    (String.length (sjoin "," ts) < fuel)%nat ->
    decodeArray fuel acc (sjoin "," ts +:+ String "]" X) = Ok (GSlice (acc ++ gs), X).
Proof.
  induction 1 as [|t g ts gs Ht Hts IH]; [ done | intros _ fuel acc X Hfuel ].
  pose proof (parses_nonempty _ _ Ht).
  destruct fuel as [|fuel]; [ lia | ].
  rewrite decodeArray_unfold.
  destruct ts as [|t' ts].
  - apply Forall2_nil_inv_l in Hts as ->. simpl in *.
    rewrite Ht; [ | simpl; auto | lia ]. done.
  - rewrite sjoin_cons in Hfuel |- *. rewrite !length_app in Hfuel.
    change (String.length ",") with 1%nat in Hfuel.
    rewrite !app_assoc'. change ("," +:+ ?x) with (String "," x).
    rewrite Ht; [ | simpl; auto | lia ].
    change (skipSpace (String "," ?x)) with (String "," x). cbv iota.
    change (byte "," =? 44) with true. cbv iota.
    rewrite IH; [ | done | lia ]. by rewrite <- app_assoc.
Qed.

Lemma decodeValue_unfold fuel s :
  decodeValue (S fuel) s =
  ltac:(let body := eval cbv beta iota delta [decodeValue] in (decodeValue (S fuel) s) in
        exact body).
Proof. reflexivity. Qed.

(** A text that is read as a value does not start with a closing bracket. *)
Lemma decodeValue_Ok_head fuel s r :
  decodeValue fuel s = Ok r ->
  exists c t, skipSpace s = String c t /\ byte c <> 0x5D.
Proof.
  destruct fuel as [|fuel]; [ done | ].
  rewrite decodeValue_unfold.
  destruct (skipSpace s) as [|c t]; [ done | ]. intros H.
  exists c, t. split; [ done | ]. intros Hc. revert H. cbv zeta.
  rewrite Hc. simpl. unfold number.
  rewrite Hc. simpl. unfold isDigit. rewrite Hc. done.
Qed.

Lemma parses_array ts gs :
  Forall2 parses ts gs -> ts <> [] ->
  parses ("[" +:+ sjoin "," ts +:+ "]") (GSlice gs).
Proof.
  intros H Hne fuel X _ Hfuel. simpl in Hfuel. rewrite length_app in Hfuel. simpl in Hfuel.
  destruct fuel as [|fuel]; [ lia | ].
  simpl String.append. rewrite app_assoc'. simpl String.append.
  pose proof (decodeArray_elements _ _ H Hne fuel [] X ltac:(lia)) as Hel.
  destruct fuel as [|fuel]; [ done | ].
  pose proof Hel as Hel'. rewrite decodeArray_unfold in Hel'.
  destruct (decodeValue fuel _) as [[v t]|] eqn:Hv in Hel'; [ | done ].
  apply decodeValue_Ok_head in Hv as (c & t' & Hs & Hc).
  rewrite decodeValue_unfold.
  change (skipSpace (String "[" ?x)) with (String "[" x). cbv iota zeta.
  change (byte "[" =? 123) with false. change (byte "[" =? 91) with true. cbv iota.
  rewrite Hs. rewrite (proj2 (Z.eqb_neq _ _) Hc). exact Hel.
Qed.

Lemma decodeObject_unfold fuel m s :
  decodeObject (S fuel) m s =
  match skipSpace s with
  | String c t =>
    if byte c =? 0x22 then
      let* (key, t) := unquote (String.length t) t in
      match skipSpace t with
      | String c t =>
        if byte c =? 0x3A then
          let* (v, t) := decodeValue fuel t in
          let m := <[key := v]> m in
          match skipSpace t with
          | String c t =>
            if byte c =? 0x2C then decodeObject fuel m t
            else if byte c =? 0x7D then Ok (GMap m, t)
            else Err SyntaxError
          | EmptyString => Err SyntaxError
          end
        else Err SyntaxError
      | EmptyString => Err SyntaxError
      end
    else Err SyntaxError
  | EmptyString => Err SyntaxError
  end.
Proof. reflexivity. Qed.

Lemma member_length k t :
  (String.length t + 3 <= String.length (member k t))%nat.
Proof.
  unfold member. rewrite !length_app. pose proof (encodeString_length k).
  change (String.length ":") with 1%nat. lia.
Qed.

(** One member and the delimiter behind it. *)
Lemma decodeObject_member fuel m k t g X :
  parses t g -> delim X -> (String.length (member k t) <= fuel)%nat ->
  decodeObject (S fuel) m (member k t +:+ X) =
  match skipSpace X with
  | String c t =>
    if byte c =? 0x2C then decodeObject fuel (<[coerce k := g]> m) t
    else if byte c =? 0x7D then Ok (GMap (<[coerce k := g]> m), t)
    else Err SyntaxError
  | EmptyString => Err SyntaxError
  end.
Proof.
  intros Ht HX Hfuel. pose proof (member_length k t).
  rewrite decodeObject_unfold. unfold member, encodeString.
  simpl String.append. rewrite !app_assoc'. simpl String.append.
  change (skipSpace (String dquote ?x)) with (String dquote x). cbv iota.
  change (byte dquote =? 34) with true. cbv iota.
  rewrite decode_encodeString.
  change (skipSpace (String ":" ?x)) with (String ":" x). cbv iota.
  change (byte ":" =? 58) with true. cbv iota.
  rewrite Ht; [ done | done | lia ].
Qed.

(** The members of an object, up to its closing brace. *)
Lemma decodeObject_members ms gs :
  Forall2 member_parses ms gs -> ms <> [] ->
  forall fuel m X,
    (String.length (members_text ms) < fuel)%nat ->
    decodeObject fuel m (members_text ms +:+ String "}" X) =
    Ok (GMap (foldl (fun m kg => <[coerce kg.1 := kg.2]> m) m gs), X).
Proof.
  unfold members_text.
  induction 1 as [|[k t] [k' g] ms gs [Hk Ht] Hms IH]; [ done | intros _ fuel m X Hfuel ].
  simpl in Hk, Ht. subst k'.
  pose proof (member_length k t).
  destruct fuel as [|fuel]; [ lia | ].
  destruct ms as [|kt ms].
  - apply Forall2_nil_inv_l in Hms as ->.
    change (sjoin "," (map _ [(k, t)])) with (member k t) in Hfuel |- *.
    rewrite (decodeObject_member _ _ _ _ g); [ done | done | simpl; auto | ]. lia.
  - change (sjoin "," (map ?f ((k, t) :: kt :: ms)))
      with (member k t +:+ "," +:+ sjoin "," (map f (kt :: ms))) in Hfuel |- *.
    rewrite !length_app in Hfuel.
    change (String.length ",") with 1%nat in Hfuel.
    rewrite !app_assoc'. change ("," +:+ ?x) with (String "," x).
    rewrite (decodeObject_member _ _ _ _ g); [ | done | simpl; auto | lia ].
    change (skipSpace (String "," ?x)) with (String "," x). cbv iota.
    change (byte "," =? 44) with true. cbv iota.
    rewrite IH; [ done | done | lia ].
Qed.

Lemma parses_object ms gs :
  Forall2 member_parses ms gs ->
  parses (object ms) (gobject gs).
Proof.
  intros H fuel X _ Hfuel. unfold object in *. fold (members_text ms) in *.
  simpl in Hfuel. rewrite length_app in Hfuel. simpl in Hfuel.
  destruct fuel as [|fuel]; [ lia | ].
  simpl String.append. rewrite app_assoc'. simpl String.append.
  destruct ms as [|[k t] ms].
  - apply Forall2_nil_inv_l in H as ->. reflexivity.
  - rewrite decodeValue_unfold.
    change (skipSpace (String "{" ?x)) with (String "{" x). cbv iota zeta.
    change (byte "{" =? 123) with true. cbv iota.
    assert (exists t', members_text ((k, t) :: ms) +:+ String "}" X = String dquote t')
      as [t' Ht'].
    { unfold members_text. destruct ms; simpl; eauto. }
    rewrite Ht'.
    change (skipSpace (String dquote ?x)) with (String dquote x). cbv iota.
    change (byte dquote =? 125) with false. cbv iota.
    rewrite <- Ht'. apply (decodeObject_members _ _ H); [ done | lia ].
Qed.

Lemma value_ind' (P : value -> Prop) :
(forall s, P (VString s)) ->
(forall i, P (VInt i)) ->
(forall b, P (VBool b)) ->
(forall l, Forall P l -> P (VSlice l)) ->
(forall fs, Forall (fun fv => P fv.2) fs -> P (VStruct fs)) ->
(forall kvs, Forall (fun kv => P kv.2) kvs -> P (VMap kvs)) ->
forall v, P v.
Proof.
intros Hs Hi Hb Hl Hf Hm.
fix IH 1. intros [s|i|b|l|fs|kvs].
- apply Hs.
- apply Hi.
- apply Hb.
- apply Hl. induction l as [|v l IHl]; constructor; [ apply IH | apply IHl ].
- apply Hf. induction fs as [|[f v] fs IHfs]; constructor; [ apply IH | apply IHfs ].
- apply Hm. induction kvs as [|[k v] kvs IHkvs]; constructor; [ apply IH | apply IHkvs ].
Qed.

Lemma assoc_map {A B} (f : A -> B) k (l : list (string * A)) :
assoc k (map (fun kv => (kv.1, f kv.2)) l) = f <$> assoc k l.
Proof.
induction l as [|[k' a] l IH]; simpl; [ done | ]. by case_decide.
Qed.

Lemma assoc_Some {A} k (l : list (string * A)) :
k ∈ map fst l -> exists a, assoc k l = Some a /\ (k, a) ∈ l.
Proof.
induction l as [|[k' a] l IH]; simpl; [ by intros ?%elem_of_nil | ].
intros [->|Hk]%elem_of_cons.
- exists a. rewrite decide_True by done. split; [ done | left ].
- case_decide as Hd.
  + subst k'. exists a. split; [ done | left ].
  + destruct (IH Hk) as (a' & ? & ?). exists a'. split; [ done | by right ].
Qed.

Lemma encode_parses v : wf v -> parses (encode v) (generic v).
Proof.
  induction v as [s|i|b|l IH|fs IH|kvs IH] using value_ind'; intros Hwf.
  - apply parses_string.
  - inversion_clear Hwf as [|? Hi| | | |].
    destruct (float64_facts.float64_of_int_total _ Hi) as [f Hf].
    simpl. rewrite Hf. by apply parses_int.
  - apply parses_bool.
  - inversion_clear Hwf as [| | |? Hl | |].
    destruct l as [|v l]; [ apply parses_null | ].
    change (encode (VSlice (v :: l)))
      with ("[" +:+ sjoin "," (map encode (v :: l)) +:+ "]").
    change (generic (VSlice (v :: l))) with (GSlice (map generic (v :: l))).
    apply parses_array; [ | done ].
    apply Forall2_fmap, Forall_Forall2_diag.
    rewrite Forall_forall in IH, Hl |- *. intros x Hx. apply IH; auto.
  - inversion_clear Hwf as [| | | |? Hl |].
    simpl. apply parses_object.
    induction fs as [|[f v] fs IHfs]; simpl; [ constructor | ].
    apply Forall_cons in IH as [IHv IH]. apply Forall_cons in Hl as [Hv Hl].
    destruct (omitEmpty f && isEmptyValue v); [ by apply IHfs | ].
    constructor; [ split; [ done | by apply IHv ] | by apply IHfs ].
  - inversion_clear Hwf as [| | | | |? Hl].
    simpl. apply parses_object. unfold entries.
    apply Forall2_fmap, Forall_Forall2_diag.
    rewrite Forall_forall. intros k Hk.
    rewrite merge_sort_Permutation in Hk.
    destruct (assoc_Some _ _ Hk) as (v & Hv & Hin).
    rewrite !assoc_map, Hv. split; [ done | ]. simpl.
    rewrite Forall_forall in IH, Hl.
    apply (IH _ Hin), (Hl _ Hin).
Qed.

(** Unmarshal reads back what Marshal wrote. *)
Theorem Unmarshal_encode v : wf v -> Unmarshal (encode v) = Ok (generic v).
Proof.
  intros Hwf. unfold Unmarshal.
  pose proof (encode_parses v Hwf (2 * String.length (encode v) + 2)%nat "" I) as H.
  rewrite app_nil_r' in H. rewrite H by lia. done.
Qed.

End json_roundtrip.

(** ** Valid UTF-8 comes back as it is *)

Module valid_facts.
Import utf8 json utf8_facts.

Lemma stake_sdrop n s : stake n s +:+ sdrop n s = s.
Proof. revert s; induction n; intros [|c s]; simpl; try done. by rewrite IHn. Qed.

Lemma sdrop_app n s X : (n <= String.length s)%nat -> sdrop n (s +:+ X) = sdrop n s +:+ X.
Proof.
  revert s; induction n; intros [|c s] H; simpl in *; try done; try lia.
  apply IHn. lia.
Qed.

Lemma stake_length n s : (String.length (stake n s) <= n)%nat.
Proof. revert s; induction n; intros [|c s]; simpl; try lia. specialize (IHn s). lia. Qed.

Lemma stake_full n s : String.length (stake n s) = n -> (n <= String.length s)%nat.
Proof.
  revert s; induction n; intros [|c s]; simpl; try lia.
  intros H. specialize (IHn s). lia.
Qed.

(** A valid string is coerced to itself. *)
Lemma coerceLoop_valid n : forall s,
  (String.length s <= n)%nat -> validLoop n s = true -> coerceLoop n s = s.
Proof.
  induction n as [|n IH]; intros [|c t] Hn Hv; simpl in Hn; try done; try lia.
  cbn [validLoop coerceLoop] in Hv |- *.
  destruct (byte c <? RuneSelf) eqn:Hc.
  - rewrite IH; [ done | lia | done ].
  - apply Z.ltb_ge in Hc. unfold RuneSelf in Hc.
    destruct (DecodeRuneInString (String c t)) as [r size] eqn:Hd.
    destruct (size =? 1)%nat eqn:Hs; [ done | ].
    apply Nat.eqb_neq in Hs.
    destruct (Decode_nonascii _ _ _ _ Hc Hd) as [[-> ->]|Hsize]; [ done | ].
    destruct (Decode_multibyte _ _ _ Hd Hsize) as (_ & _ & _ & _ & Hshort & _).
    simpl in Hshort.
    rewrite IH; [ apply stake_sdrop | lia | done ].
Qed.

Theorem coerce_valid s : ValidString s = true -> coerce s = s.
Proof. intros H. by apply coerceLoop_valid. Qed.

Lemma validLoop_mono n : forall m s,
  (n <= m)%nat -> validLoop n s = true -> validLoop m s = true.
Proof.
  induction n as [|n IH]; intros m [|c t] Hm Hv; try (by destruct m); try discriminate Hv.
  destruct m as [|m]; [ lia | ].
  cbn [validLoop] in *.
  destruct (byte c <? RuneSelf); [ apply IH; [ lia | done ] | ].
  destruct (DecodeRuneInString (String c t)) as [r size].
  destruct (size =? 1)%nat; [ done | ]. apply IH; [ lia | done ].
Qed.

Lemma validLoop_app n : forall a b m,
  (String.length a <= n)%nat ->
  validLoop n a = true -> validLoop m b = true ->
  validLoop (n + m) (a +:+ b) = true.
Proof.
  induction n as [|n IH]; intros [|c t] b m Hn Ha Hb; simpl in Hn; try lia.
  - simpl. done.
  - simpl String.append. apply (validLoop_mono m); [ lia | done ].
  - simpl String.append. cbn [validLoop Nat.add] in *.
    destruct (byte c <? RuneSelf) eqn:Hc; [ apply IH; [ lia | done | done ] | ].
    apply Z.ltb_ge in Hc. unfold RuneSelf in Hc.
    destruct (DecodeRuneInString (String c t)) as [r size] eqn:Hd.
    destruct (size =? 1)%nat eqn:Hs; [ done | ].
    apply Nat.eqb_neq in Hs.
    destruct (Decode_nonascii _ _ _ _ Hc Hd) as [[-> ->]|Hsize]; [ done | ].
    destruct (Decode_multibyte _ _ _ Hd Hsize) as (_ & Hlen & Hpre & _ & Hshort & _).
    simpl in Hshort.
    assert (String c (t +:+ b) = stake size (String c t) +:+ (sdrop size (String c t) +:+ b)) as Heq.
    { rewrite <- app_assoc', stake_sdrop. done. }
    rewrite Heq at 1. rewrite Hpre.
    replace (size =? 1)%nat with false by (symmetry; apply Nat.eqb_neq; lia).
    change (String c (t +:+ b)) with (String c t +:+ b).
    rewrite sdrop_app by (by apply stake_full).
    apply IH; [ lia | done | done ].
Qed.

Theorem ValidString_app a b :
  ValidString a = true -> ValidString b = true -> ValidString (a +:+ b) = true.
Proof.
  unfold ValidString. intros Ha Hb. rewrite length_app.
  by apply validLoop_app.
Qed.

(** Decimal digits are ASCII. *)
Lemma ValidString_uint d : ValidString (NilEmpty.string_of_uint d) = true.
Proof.
  unfold ValidString.
  induction d; simpl; try done.
Qed.

Theorem ValidString_FormatInt i : ValidString (strconv.FormatInt i) = true.
Proof.
  unfold strconv.FormatInt, NilZero.string_of_int, NilZero.string_of_uint.
  destruct i as [|p|p]; simpl Z.to_int; cbv iota.
  - done.
  - destruct (Pos.to_uint p) eqn:H; try apply ValidString_uint. done.
  - apply (ValidString_app "-"); [ done | ].
    destruct (Pos.to_uint p) eqn:H; try apply ValidString_uint. done.
Qed.

End valid_facts.

(** ** The builder *)

Lemma foldl_snoc {A B} (f : A -> B) (l : list A) (acc : list B) :
  foldl (fun uris x => uris ++ [f x]) acc l = acc ++ (f <$> l).
Proof.
  revert acc. induction l as [|x l IH]; intros acc; simpl.
  - by rewrite app_nil_r.
  - rewrite IH. by rewrite <- app_assoc.
Qed.

Section builder_facts.
Variable b : Builder.

Lemma urisForBinding_map : urisForBinding b = uriForBinding b <$> Hostnames b.
Proof. unfold urisForBinding. by rewrite foldl_snoc. Qed.

Lemma urisForAMQP_map port :
  urisForAMQP b port = (fun h => uriForAMQP b h port) <$> Hostnames b.
Proof. unfold urisForAMQP. by rewrite (foldl_snoc (fun h => uriForAMQP b h port)). Qed.

Lemma urisForManagement_map port :
  urisForManagement b port = (fun h => uriForManagement b h port) <$> Hostnames b.
Proof. unfold urisForManagement. by rewrite (foldl_snoc (fun h => uriForManagement b h port)). Qed.

Section nonempty.
Variables (h : string) (hs : list string).
Hypothesis Hhosts : Hostnames b = h :: hs.

Lemma index_Hostnames : index (Hostnames b) 0 = Done h.
Proof. by rewrite Hhosts. Qed.

Lemma addAMQPProtocol_Done port :
  addAMQPProtocol b port false = Done (amqpProtocol b h port).
Proof.
  unfold addAMQPProtocol, amqpProtocol. rewrite index_Hostnames, urisForAMQP_map. done.
Qed.

Lemma addMgmtProtocol_Done : addMgmtProtocol b = Done (mgmtProtocol b h).
Proof.
  unfold addMgmtProtocol, mgmtProtocol.
  rewrite index_Hostnames, urisForManagement_map. done.
Qed.

Lemma protocols_Done : protocols b = Done (protocolsMap b h).
Proof.
  unfold protocols, protocolsMap, amqpEntry.
  rewrite addMgmtProtocol_Done.
  match goal with |- context [map_fold ?f ?z _] =>
    assert (map_fold f z (ProtocolPorts b) =
            Done (match ProtocolPorts b !! "amqp" with
                  | Some port => {[ "amqp" := amqpProtocol b h port ]}
                  | None => ∅
                  end)) as ->
  end; [ | done ].
  apply (map_fold_weak_ind (fun r m => r =
            Done (match m !! "amqp" with
                  | Some port => {[ "amqp" := amqpProtocol b h port ]}
                  | None => ∅
                  end))).
  - by rewrite lookup_empty.
  - intros i x m r Hi ->. simpl. case_decide as Hd.
    + subst i. rewrite Hi, lookup_insert_eq, addAMQPProtocol_Done. done.
    + by rewrite lookup_insert_ne.
Qed.

Lemma bind_Done : bind b = Done (theBinding b h).
Proof.
  unfold bind, theBinding.
  rewrite index_Hostnames, protocols_Done, urisForBinding_map. done.
Qed.
End nonempty.

Lemma bind_Panic : Hostnames b = [] -> bind b = Panic IndexOutOfRange.
Proof. intros H. unfold bind. by rewrite H. Qed.
End builder_facts.

Import json.

(** *** The keys of an object *)

Lemma assoc_None {A} k (l : list (string * A)) : k ∉ l.*1 -> assoc k l = None.
Proof.
  induction l as [|[k' a] l IH]; simpl; [ done | ].
  intros [Hk Hl]%not_elem_of_cons. by rewrite decide_False, IH.
Qed.

Lemma foldl_insert_lookup (l : list (string * gval)) : forall (m : gmap string gval) k,
  plain_keys l ->
  foldl (fun m kg => <[coerce kg.1 := kg.2]> m) m l !! k =
  match assoc k l with
  | Some g => Some g
  | None => m !! k
  end.
Proof.
  induction l as [|[k' g] l IH]; intros m k [Hc Hnd]; simpl; [ done | ].
  apply Forall_cons in Hc as [Hk Hc]. apply NoDup_cons in Hnd as [Hk' Hnd].
  simpl in Hk. rewrite IH, Hk by done.
  case_decide as Hd.
  - subst k'. by rewrite assoc_None, lookup_insert_eq.
  - by rewrite lookup_insert_ne.
Qed.

Lemma key_gobject (l : list (string * gval)) k :
  plain_keys l -> key k (gobject l) = assoc k l.
Proof.
  intros H. unfold key, gobject. rewrite foldl_insert_lookup, lookup_empty by done.
  by destruct (assoc k l).
Qed.

Lemma foldl_insert_dom (l : list (string * gval)) : forall (m : gmap string gval),
  Forall (fun kg => coerce kg.1 = kg.1) l ->
  dom (foldl (fun m kg => <[coerce kg.1 := kg.2]> m) m l) = dom m ∪ list_to_set l.*1.
Proof.
  induction l as [|[k g] l IH]; intros m Hc; simpl.
  - set_solver.
  - apply Forall_cons in Hc as [Hk Hc]. simpl in Hk.
    rewrite IH, Hk, dom_insert_L by done. set_solver.
Qed.

Lemma keys_gobject (l : list (string * gval)) :
  plain_keys l -> keys (gobject l) = list_to_set l.*1.
Proof.
  intros [H _]. unfold keys, gobject. rewrite foldl_insert_dom by done. set_solver.
Qed.

Lemma key_None k g : k ∉ keys g -> key k g = None.
Proof. destruct g; try done. simpl. apply not_elem_of_dom. Qed.

(** Key names that are plain ASCII and differ: checked by evaluation. *)
Ltac plain_keys :=
  split; [ repeat (constructor; [ reflexivity | ]); constructor
         | apply (bool_decide_unpack _); vm_compute; exact I ].

(** *** The keys of the three shapes *)

Lemma descriptor_keys u pw vh h hs uri uris port ssl pth :
  let d := descriptor u pw vh h hs uri uris port ssl pth in
  key "username" d = Some u /\ key "password" d = Some pw /\
  key "vhost" d = vh /\ key "host" d = Some h /\ key "hosts" d = Some hs /\
  key "uri" d = Some uri /\ key "uris" d = Some uris /\
  key "port" d = Some port /\ key "ssl" d = Some ssl /\ key "path" d = pth /\
  keys d = protocol_names
             ∪ (if vh is Some _ then {[ "vhost" ]} else ∅)
             ∪ (if pth is Some _ then {[ "path" ]} else ∅).
Proof.
  unfold descriptor, protocol_names.
  destruct vh, pth; cbv zeta; cbn [app];
    rewrite !key_gobject, keys_gobject by plain_keys;
    (split_and!; [ reflexivity .. | cbn [fmap list_fmap fst list_to_set]; set_solver ]).
Qed.

Lemma descriptors_keys a m :
  let ds := descriptors a m in
  key "amqp" ds = a /\ key "management" ds = Some m /\
  keys ds = {[ "management" ]} ∪ (if a is Some _ then {[ "amqp" ]} else ∅).
Proof.
  unfold descriptors.
  destruct a; cbv zeta; cbn [app];
    rewrite !key_gobject, keys_gobject by plain_keys;
    (split_and!; [ reflexivity .. | cbn [fmap list_fmap fst list_to_set]; set_solver ]).
Qed.

Lemma record_keys g1 g2 g3 g4 g5 g6 g7 g8 g9 g10 g11 g12 :
  let r := record g1 g2 g3 g4 g5 g6 g7 g8 g9 g10 g11 g12 in
  key "dashboard_url" r = Some g1 /\ key "username" r = Some g2 /\
  key "password" r = Some g3 /\ key "hostname" r = Some g4 /\
  key "hostnames" r = Some g5 /\ key "http_api_uri" r = Some g6 /\
  key "http_api_uris" r = Some g7 /\ key "uri" r = Some g8 /\
  key "uris" r = Some g9 /\ key "vhost" r = Some g10 /\
  key "ssl" r = Some g11 /\ key "protocols" r = Some g12 /\
  keys r = binding_names.
Proof.
  unfold record, binding_names. cbv zeta.
  rewrite !key_gobject, keys_gobject by plain_keys.
  split_and!; [ reflexivity .. | cbn [fmap list_fmap fst list_to_set]; set_solver ].
Qed.

(** *** The record that is read back *)

Lemma generic_strings l : l <> [] -> generic (strings_value l) = gstrings l.
Proof.
  intros H. destruct l as [|s l]; [ done | ].
  unfold strings_value, gstrings. simpl. f_equal. f_equal.
  by rewrite <- list_fmap_compose.
Qed.

Lemma generic_protocol p :
  protocol.Hostnames p <> [] -> protocol.URIs p <> [] ->
  generic (protocol_value p) = protocol_record p.
Proof.
  destruct p as [u pw vh hn hns uri uris port tls pth]. simpl. intros H1 H2.
  unfold protocol_record. simpl.
  rewrite <- !generic_strings by done.
  destruct vh, pth; reflexivity.
Qed.

Lemma assoc_NoDup {A} k a (l : list (string * A)) :
  NoDup l.*1 -> (k, a) ∈ l -> assoc k l = Some a.
Proof.
  induction l as [|[k' a'] l IH]; simpl; [ by intros _ ?%elem_of_nil | ].
  intros [Hk Hnd]%NoDup_cons [Heq|Hin]%elem_of_cons.
  - simplify_eq. by rewrite decide_True.
  - case_decide as Hd; [ | by apply IH ].
    subst k'. exfalso. apply Hk. apply list_elem_of_fmap. by exists (k, a).
Qed.

Lemma assoc_map_to_list {A} (m : gmap string A) k : assoc k (map_to_list m) = m !! k.
Proof.
  destruct (m !! k) as [a|] eqn:Hk.
  - apply assoc_NoDup; [ apply NoDup_fst_map_to_list | by apply elem_of_map_to_list ].
  - apply assoc_None. intros ([k' a] & -> & Hin)%list_elem_of_fmap.
    apply elem_of_map_to_list in Hin. simpl in Hk. congruence.
Qed.

Lemma sorted_keys {A} (m : gmap string A) ks :
  Sorted String.le ks -> ks ≡ₚ (map_to_list m).*1 ->
  merge_sort String.le (map_to_list m).*1 = ks.
Proof.
  intros Hs Hp. apply (Sorted_unique String.le); [ | done | ].
  - apply Sorted_merge_sort. apply _.
  - by rewrite merge_sort_Permutation.
Qed.

Lemma generic_protocols (ps : gmap string protocol.t) ks :
  map_Forall (fun _ p => protocol.Hostnames p <> [] /\ protocol.URIs p <> []) ps ->
  Sorted String.le ks -> ks ≡ₚ (map_to_list ps).*1 ->
  generic (protocols_value ps) =
  gobject ((fun k => (k, default GNil (protocol_record <$> ps !! k))) <$> ks).
Proof.
  intros Hne Hs Hp. unfold protocols_value. simpl. unfold entries. f_equal.
  change (map fst ?l) with (l.*1).
  rewrite (sorted_keys _ ks); [ | done | ].
  - apply list_fmap_ext. intros _ k _. f_equal.
    rewrite json_roundtrip.assoc_map, assoc_map_to_list, lookup_fmap.
    destruct (ps !! k) as [p|] eqn:Hk; [ | done ].
    destruct (Hne _ _ Hk). by apply generic_protocol.
  - rewrite Hp, map_to_list_fmap, <- list_fmap_compose. done.
Qed.

Lemma Sorted_amqp_management : Sorted String.le ["amqp"; "management"].
Proof. repeat constructor. Qed.

Lemma Sorted_management : Sorted String.le ["management"].
Proof. repeat constructor. Qed.

Lemma protocolsMap_nonempty b h hs :
  Hostnames b = h :: hs ->
  map_Forall (fun _ p => protocol.Hostnames p <> [] /\ protocol.URIs p <> [])
             (protocolsMap b h).
Proof.
  intros Hh k p. unfold protocolsMap, amqpEntry.
  destruct (decide (k = "management")) as [->|Hk].
  - rewrite lookup_insert_eq. intros [= <-]. simpl. by rewrite Hh.
  - rewrite lookup_insert_ne by done.
    destruct (ProtocolPorts b !! "amqp") as [port|] eqn:Hp; [ | by rewrite lookup_empty ].
    intros [<- <-]%lookup_singleton_Some. simpl. by rewrite Hh.
Qed.

Lemma generic_protocolsMap b h hs :
  Hostnames b = h :: hs ->
  generic (protocols_value (protocolsMap b h)) = protocols_record b h.
Proof.
  intros Hh. pose proof (protocolsMap_nonempty b h hs Hh) as Hne. revert Hne.
  unfold protocolsMap, protocols_record, amqpEntry.
  destruct (ProtocolPorts b !! "amqp") as [port|]; intros Hne.
  - rewrite (generic_protocols _ ["amqp"; "management"]).
    + simpl. rewrite lookup_insert_ne, lookup_singleton_eq, lookup_insert_eq by done. done.
    + done.
    + apply Sorted_amqp_management.
    + rewrite map_to_list_insert, map_to_list_singleton by done. simpl. apply perm_swap.
  - rewrite (generic_protocols _ ["management"]).
    + simpl. by rewrite lookup_insert_eq.
    + done.
    + apply Sorted_management.
    + rewrite insert_empty, map_to_list_singleton. done.
Qed.

Lemma generic_theBinding b h hs :
  Hostnames b = h :: hs ->
  generic (binding_value (theBinding b h)) = binding_record b h.
Proof.
  intros Hh. unfold binding_record.
  rewrite <- (generic_protocolsMap b h hs Hh).
  rewrite <- !generic_strings; [ reflexivity | by rewrite Hh | done | by rewrite Hh ].
Qed.

(** *** Build returns the record *)

Lemma wf_strings l : wf (strings_value l).
Proof.
  constructor. apply Forall_fmap, Forall_forall. intros s _. constructor.
Qed.

Lemma wf_protocol p : strconv.int_range (protocol.Port p) -> wf (protocol_value p).
Proof.
  intros H. constructor.
  repeat (constructor; [ first [ apply wf_strings | by constructor ] | ]). constructor.
Qed.

Lemma wf_binding v :
  map_Forall (fun _ p => strconv.int_range (protocol.Port p)) (binding.Protocols v) ->
  wf (binding_value v).
Proof.
  intros H. constructor.
  repeat (constructor; [ first [ apply wf_strings | by constructor ] | ]).
  constructor; [ | constructor ].
  constructor. apply Forall_forall. intros [k pv] Hin.
  apply elem_of_map_to_list in Hin. rewrite lookup_fmap in Hin.
  destruct (binding.Protocols v !! k) as [p|] eqn:Hk; [ | done ].
  simpl in Hin. injection Hin as <-. apply wf_protocol. by apply (H k).
Qed.

Lemma protocolsMap_ports b h :
  Builder_wf b ->
  map_Forall (fun _ p => strconv.int_range (protocol.Port p)) (protocolsMap b h).
Proof.
  intros Hwf k p. unfold protocolsMap, amqpEntry.
  destruct (decide (k = "management")) as [->|Hk].
  - rewrite lookup_insert_eq. intros [= <-]. simpl. unfold strconv.int_range, strconv.IntSize. lia.
  - rewrite lookup_insert_ne by done.
    destruct (ProtocolPorts b !! "amqp") as [port|] eqn:Hp; [ | by rewrite lookup_empty ].
    intros [<- <-]%lookup_singleton_Some. simpl. by apply (Hwf "amqp").
Qed.

Theorem Build_Done b h hs :
  Hostnames b = h :: hs -> Builder_wf b ->
  Build b = Done (Ok (binding_record b h)).
Proof.
  intros Hh Hwf. unfold Build. rewrite (bind_Done b h hs Hh).
  unfold mbind, exec_bind, mret, exec_ret, Marshal.
  rewrite json_roundtrip.Unmarshal_encode.
  - by rewrite (generic_theBinding b h hs).
  - apply wf_binding. simpl. by apply protocolsMap_ports.
Qed.

Theorem Build_Panic b : Hostnames b = [] -> Build b = Panic IndexOutOfRange.
Proof. intros H. unfold Build. by rewrite bind_Panic. Qed.

Lemma Build_record b :
  Hostnames b <> [] -> Builder_wf b ->
  exists h hs, Hostnames b = h :: hs /\ Build b = Done (Ok (binding_record b h)).
Proof.
  intros Hne Hwf. destruct (Hostnames b) as [|h hs] eqn:Hh; [ done | ].
  exists h, hs. split; [ done | ]. by apply (Build_Done b h hs).
Qed.

(** The members of the record, of its protocols and of a descriptor. *)
Lemma binding_record_keys b h :
  let r := binding_record b h in
  key "dashboard_url" r = Some (gstring (dashboardURL b)) /\
  key "username" r = Some (gstring (Username b)) /\
  key "password" r = Some (gstring (Password b)) /\
  key "hostname" r = Some (gstring h) /\
  key "hostnames" r = Some (gstrings (Hostnames b)) /\
  key "http_api_uri" r = Some (gstring (httpapiuriForBinding b)) /\
  key "http_api_uris" r = Some (gstrings [httpapiuriForBinding b]) /\
  key "uri" r = Some (gstring (uriForBinding b h)) /\
  key "uris" r = Some (gstrings (uriForBinding b <$> Hostnames b)) /\
  key "vhost" r = Some (gstring (VHost b)) /\
  key "ssl" r = Some (GBool (TLS b)) /\
  key "protocols" r = Some (protocols_record b h) /\
  keys r = binding_names.
Proof.
  exact (record_keys (gstring (dashboardURL b)) (gstring (Username b))
           (gstring (Password b)) (gstring h) (gstrings (Hostnames b))
           (gstring (httpapiuriForBinding b)) (gstrings [httpapiuriForBinding b])
           (gstring (uriForBinding b h)) (gstrings (uriForBinding b <$> Hostnames b))
           (gstring (VHost b)) (GBool (TLS b)) (protocols_record b h)).
Qed.

Lemma protocols_record_keys b h :
  let ds := protocols_record b h in
  key "amqp" ds
    = (fun port => protocol_record (amqpProtocol b h port)) <$> ProtocolPorts b !! "amqp" /\
  key "management" ds = Some (protocol_record (mgmtProtocol b h)) /\
  keys ds = {[ "management" ]}
              ∪ (if ProtocolPorts b !! "amqp" is Some _ then {[ "amqp" ]} else ∅).
Proof.
  unfold protocols_record.
  destruct (descriptors_keys
              ((fun port => protocol_record (amqpProtocol b h port)) <$> ProtocolPorts b !! "amqp")
              (protocol_record (mgmtProtocol b h))) as (H1 & H2 & H3).
  split_and!; [ done | done | ]. rewrite H3. by destruct (ProtocolPorts b !! "amqp").
Qed.

Lemma protocol_record_keys p :
  let d := protocol_record p in
  key "username" d = Some (gstring (protocol.Username p)) /\
  key "password" d = Some (gstring (protocol.Password p)) /\
  key "vhost" d = omitempty (protocol.VHost p) /\
  key "host" d = Some (gstring (protocol.Hostname p)) /\
  key "hosts" d = Some (gstrings (protocol.Hostnames p)) /\
  key "uri" d = Some (gstring (protocol.URI p)) /\
  key "uris" d = Some (gstrings (protocol.URIs p)) /\
  key "port" d = Some (generic (VInt (protocol.Port p))) /\
  key "ssl" d = Some (GBool (protocol.TLS p)) /\
  key "path" d = omitempty (protocol.Path p) /\
  keys d = protocol_names
             ∪ (if omitempty (protocol.VHost p) is Some _ then {[ "vhost" ]} else ∅)
             ∪ (if omitempty (protocol.Path p) is Some _ then {[ "path" ]} else ∅).
Proof.
  exact (descriptor_keys (gstring (protocol.Username p)) (gstring (protocol.Password p))
           (omitempty (protocol.VHost p)) (gstring (protocol.Hostname p))
           (gstrings (protocol.Hostnames p)) (gstring (protocol.URI p))
           (gstrings (protocol.URIs p)) (generic (VInt (protocol.Port p)))
           (GBool (protocol.TLS p)) (omitempty (protocol.Path p))).
Qed.

Lemma key_protocols b h :
  key "protocols" (binding_record b h) = Some (protocols_record b h).
Proof.
  by destruct (binding_record_keys b h) as (_ & _ & _ & _ & _ & _ & _ & _ & _ & _ & _ & H & _).
Qed.

Lemma key_amqp b h port :
  ProtocolPorts b !! "amqp" = Some port ->
  key "amqp" (protocols_record b h) = Some (protocol_record (amqpProtocol b h port)).
Proof. intros H. destruct (protocols_record_keys b h) as [-> _]. by rewrite H. Qed.

Lemma key_management b h :
  key "management" (protocols_record b h) = Some (protocol_record (mgmtProtocol b h)).
Proof. by destruct (protocols_record_keys b h) as (_ & H & _). Qed.

(** path, one key at a time *)
Lemma path_cons k ks g g' : key k g = Some g' -> path (k :: ks) g = path ks g'.
Proof. intros H. unfold path. simpl. by rewrite H. Qed.

Lemma path_nil g : path [] g = Some g.
Proof. done. Qed.

Lemma path_one k g : path [k] g = key k g.
Proof. done. Qed.

Lemma scenarioA_wf tls : Builder_wf (scenarioA tls).
Proof.
  apply map_Forall_singleton. unfold strconv.int_range, strconv.IntSize. lia.
Qed.

Lemma scenarioA_amqp tls : ProtocolPorts (scenarioA tls) !! "amqp" = Some 5672.
Proof. simpl. apply lookup_singleton_eq. Qed.

(** C1: for the configuration of scenario A, Build returns a record whose
    uri, protocols.amqp.uri, protocols.management.uri and dashboard_url are
    the four strings of the scenario. *)
Theorem scenarioA_record tls :
  exists out, Build (scenarioA tls) = Done (Ok out) /\
    key "uri" out = Some (GString "amqp://u:p@10.0.0.5/%2f") /\
    path ["protocols"; "amqp"; "uri"] out
      = Some (GString "amqp://u:p@10.0.0.5:5672/%2f") /\
    path ["protocols"; "management"; "uri"] out
      = Some (GString "http://u:p@10.0.0.5:15672/api/") /\
    key "dashboard_url" out = Some (GString "http://10.0.0.5:15672/#/login/u/p").
Proof.
  exists (binding_record (scenarioA tls) "10.0.0.5").
  split; [ by apply (Build_Done _ _ []), scenarioA_wf | ].
  pose proof (binding_record_keys (scenarioA tls) "10.0.0.5") as (Hd & _ & _ & _ & _ & _ & _ & Hu & _).
  pose proof (protocol_record_keys (amqpProtocol (scenarioA tls) "10.0.0.5" 5672))
    as (_ & _ & _ & _ & _ & Ha & _).
  pose proof (protocol_record_keys (mgmtProtocol (scenarioA tls) "10.0.0.5"))
    as (_ & _ & _ & _ & _ & Hm & _).
  split_and!.
  - rewrite Hu. by vm_compute.
  - rewrite (path_cons _ _ _ _ (key_protocols _ _)),
      (path_cons _ _ _ _ (key_amqp _ _ 5672 (scenarioA_amqp tls))), path_one, Ha.
    by vm_compute.
  - rewrite (path_cons _ _ _ _ (key_protocols _ _)),
      (path_cons _ _ _ _ (key_management _ _)), path_one, Hm. by vm_compute.
  - rewrite Hd. by vm_compute.
Qed.

Lemma scenarioA_nonempty tls : Hostnames (scenarioA tls) <> [].
Proof. done. Qed.

Lemma scenarioB_wf : Builder_wf scenarioB.
Proof.
  unfold Builder_wf, scenarioB; simpl.
  repeat (apply map_Forall_insert_2; [ unfold strconv.int_range, strconv.IntSize; lia | ]).
  apply map_Forall_empty.
Qed.

Lemma scenarioB_nonempty : Hostnames scenarioB <> [].
Proof. done. Qed.

Lemma emptyVHost_wf : Builder_wf emptyVHost.
Proof.
  apply map_Forall_singleton. unfold strconv.int_range, strconv.IntSize. lia.
Qed.

(** C2 (as the code has it): with no hostname Build panics on
    b.Hostnames[0]: it returns neither an error value nor a record. *)
Theorem Build_no_hostnames_panics b :
  Hostnames b = [] -> Build b = Panic IndexOutOfRange.
Proof. apply Build_Panic. Qed.

Lemma Build_no_hostnames_panics_witness : Build noHostnames = Panic IndexOutOfRange.
Proof. apply Build_no_hostnames_panics. reflexivity. Defined.

(** C2 fails as stated: on [noHostnames], whose hostnames are empty, Build
    returns no error value. *)
Lemma Build_no_hostnames_no_error : ~ returns_error (Build noHostnames).
Proof.
  intros [err H]. rewrite (Build_Panic noHostnames eq_refl) in H. discriminate H.
Qed.

(** C3: with an amqp entry in protocolPorts, the amqp descriptor's ssl is
    false whatever the tls flag is, and the record's own ssl is the flag. *)
Theorem amqp_descriptor_ssl_false b port :
  Hostnames b <> [] -> Builder_wf b -> ProtocolPorts b !! "amqp" = Some port ->
  exists out, Build b = Done (Ok out) /\
    path ["protocols"; "amqp"; "ssl"] out = Some (GBool false) /\
    key "ssl" out = Some (GBool (TLS b)).
Proof.
  intros Hne Hwf Hp. destruct (Build_record b Hne Hwf) as (h & hs & Hh & HB).
  exists (binding_record b h). split; [ done | ].
  destruct (binding_record_keys b h) as (_ & _ & _ & _ & _ & _ & _ & _ & _ & _ & Hssl & _).
  destruct (protocol_record_keys (amqpProtocol b h port))
    as (_ & _ & _ & _ & _ & _ & _ & _ & Hs & _).
  split; [ | done ].
  by rewrite (path_cons _ _ _ _ (key_protocols _ _)),
    (path_cons _ _ _ _ (key_amqp _ _ port Hp)), path_one, Hs.
Qed.

Lemma amqp_descriptor_ssl_false_witness :
  exists out, Build (scenarioA true) = Done (Ok out) /\
    path ["protocols"; "amqp"; "ssl"] out = Some (GBool false) /\
    key "ssl" out = Some (GBool true).
Proof.
  apply (amqp_descriptor_ssl_false (scenarioA true) 5672).
  - apply scenarioA_nonempty.
  - apply scenarioA_wf.
  - apply scenarioA_amqp.
Defined.

Lemma generic_15672 : as_int (generic (VInt 15672)) = Some 15672.
Proof. vm_compute. reflexivity. Qed.

(** C4: the protocols have a management entry with ssl false, path "/api/"
    and port 15672, whatever the tls flag and protocolPorts are. *)
Theorem management_descriptor b :
  Hostnames b <> [] -> Builder_wf b ->
  exists out mgmt, Build b = Done (Ok out) /\
    path ["protocols"; "management"] out = Some mgmt /\
    key "ssl" mgmt = Some (GBool false) /\
    key "path" mgmt = Some (GString "/api/") /\
    key "port" mgmt ≫= as_int = Some 15672.
Proof.
  intros Hne Hwf. destruct (Build_record b Hne Hwf) as (h & hs & Hh & HB).
  exists (binding_record b h), (protocol_record (mgmtProtocol b h)). split; [ done | ].
  destruct (protocol_record_keys (mgmtProtocol b h))
    as (_ & _ & _ & _ & _ & _ & _ & Hport & Hs & Hpath & _).
  split_and!.
  - by rewrite (path_cons _ _ _ _ (key_protocols _ _)), path_one, key_management.
  - done.
  - rewrite Hpath. reflexivity.
  - rewrite Hport. apply generic_15672.
Qed.

Lemma management_descriptor_witness :
  exists out mgmt, Build (scenarioA true) = Done (Ok out) /\
    path ["protocols"; "management"] out = Some mgmt /\
    key "ssl" mgmt = Some (GBool false) /\
    key "path" mgmt = Some (GString "/api/") /\
    key "port" mgmt ≫= as_int = Some 15672.
Proof.
  apply (management_descriptor (scenarioA true)).
  - apply scenarioA_nonempty.
  - apply scenarioA_wf.
Defined.

Lemma uris_of_gstrings (f : string -> string) (hosts : list string) :
  uris_of f hosts (Some (gstrings (f <$> hosts))).
Proof.
  exists (gstring <$> (f <$> hosts)). split; [ done | ].
  split; [ by rewrite !length_fmap | ].
  intros i host Hi. by rewrite !list_lookup_fmap, Hi.
Qed.

Lemma uris_of_hosts (hosts : list string) : uris_of id hosts (Some (gstrings hosts)).
Proof. rewrite <- (list_fmap_id hosts) at 2. apply uris_of_gstrings. Qed.

Lemma key_keys k g d : key k g = Some d -> k ∈ keys g.
Proof. destruct g; try done. simpl. intros H. by apply elem_of_dom. Qed.

(** Every descriptor is the management one or the amqp one. *)
Lemma descriptor_cases b h name d :
  key name (protocols_record b h) = Some d ->
  (name = "management" /\ d = protocol_record (mgmtProtocol b h)) \/
  (exists port, name = "amqp" /\ ProtocolPorts b !! "amqp" = Some port /\
     d = protocol_record (amqpProtocol b h port)).
Proof.
  intros Hk. pose proof (key_keys _ _ _ Hk) as Hin.
  destruct (protocols_record_keys b h) as (Ha & Hm & Hks). rewrite Hks in Hin.
  apply elem_of_union in Hin as [Hin|Hin].
  - apply elem_of_singleton in Hin as ->. left. split; [ done | ].
    rewrite Hm in Hk. by injection Hk.
  - destruct (ProtocolPorts b !! "amqp") as [port|] eqn:Hp; [ | set_solver ].
    apply elem_of_singleton in Hin as ->. right. exists port.
    split_and!; [ done | done | ]. rewrite Ha in Hk. by injection Hk.
Qed.

(** C5: hostname is hostnames[0]; uris has one entry for each hostname, in
    the same order, made of that hostname; so has the uris list of every
    protocol descriptor. *)
Theorem uris_follow_hostnames b :
  Hostnames b <> [] -> Builder_wf b ->
  exists out, Build b = Done (Ok out) /\
    key "hostname" out = gstring <$> Hostnames b !! 0%nat /\
    uris_of id (Hostnames b) (key "hostnames" out) /\
    uris_of (uriForBinding b) (Hostnames b) (key "uris" out) /\
    forall name d, path ["protocols"; name] out = Some d ->
      key "host" d = gstring <$> Hostnames b !! 0%nat /\
      uris_of id (Hostnames b) (key "hosts" d) /\
      exists uri,
        (uri = (fun host => uriForManagement b host 15672) \/
         exists port, ProtocolPorts b !! "amqp" = Some port /\
                      uri = (fun host => uriForAMQP b host port)) /\
        uris_of uri (Hostnames b) (key "uris" d).
Proof.
  intros Hne Hwf. destruct (Build_record b Hne Hwf) as (h & hs & Hh & HB).
  exists (binding_record b h). split; [ done | ].
  destruct (binding_record_keys b h)
    as (_ & _ & _ & Hhost & Hhosts & _ & _ & _ & Huris & _).
  rewrite Hhost, Hhosts, Huris.
  split_and!; [ by rewrite Hh | apply uris_of_hosts | apply uris_of_gstrings | ].
  intros name d. rewrite (path_cons _ _ _ _ (key_protocols _ _)), path_one.
  intros [[-> ->]|(port & -> & Hp & ->)]%descriptor_cases.
  - destruct (protocol_record_keys (mgmtProtocol b h))
      as (_ & _ & _ & H1 & H2 & _ & H3 & _).
    rewrite H1, H2, H3. simpl.
    split_and!; [ by rewrite Hh | apply uris_of_hosts | ].
    eexists. split; [ by left | apply uris_of_gstrings ].
  - destruct (protocol_record_keys (amqpProtocol b h port))
      as (_ & _ & _ & H1 & H2 & _ & H3 & _).
    rewrite H1, H2, H3. simpl.
    split_and!; [ by rewrite Hh | apply uris_of_hosts | ].
    eexists. split; [ right; by exists port | apply uris_of_gstrings ].
Qed.

Lemma uris_follow_hostnames_witness :
  exists out, Build scenarioB = Done (Ok out) /\
    key "hostname" out = Some (gstring "h1") /\
    uris_of id ["h1"; "h2"] (key "hostnames" out) /\
    uris_of (uriForBinding scenarioB) ["h1"; "h2"] (key "uris" out) /\
    forall name d, path ["protocols"; name] out = Some d ->
      key "host" d = Some (gstring "h1") /\
      uris_of id ["h1"; "h2"] (key "hosts" d) /\
      exists uri,
        (uri = (fun host => uriForManagement scenarioB host 15672) \/
         exists port, ProtocolPorts scenarioB !! "amqp" = Some port /\
                      uri = (fun host => uriForAMQP scenarioB host port)) /\
        uris_of uri ["h1"; "h2"] (key "uris" d).
Proof.
  apply (uris_follow_hostnames scenarioB).
  - apply scenarioB_nonempty.
  - apply scenarioB_wf.
Defined.

(** C6: a name of protocolPorts other than "amqp" gives no entry and no
    error: the names of protocols are "management", and "amqp" when
    protocolPorts has it. *)
Theorem protocols_names b :
  Hostnames b <> [] -> Builder_wf b ->
  exists out ps, Build b = Done (Ok out) /\
    key "protocols" out = Some ps /\
    keys ps = {[ "management" ]}
                ∪ (if ProtocolPorts b !! "amqp" is Some _ then {[ "amqp" ]} else ∅) /\
    keys ps ⊆ {[ "amqp"; "management" ]} /\
    forall name, name <> "amqp" -> name <> "management" -> key name ps = None.
Proof.
  intros Hne Hwf. destruct (Build_record b Hne Hwf) as (h & hs & Hh & HB).
  exists (binding_record b h), (protocols_record b h).
  destruct (protocols_record_keys b h) as (_ & _ & Hks).
  split_and!; [ done | apply key_protocols | done | | ].
  - rewrite Hks. destruct (ProtocolPorts b !! "amqp"); set_solver.
  - intros name H1 H2. apply key_None. rewrite Hks.
    destruct (ProtocolPorts b !! "amqp"); set_solver.
Qed.

Lemma protocols_names_witness :
  exists out ps, Build scenarioB = Done (Ok out) /\
    key "protocols" out = Some ps /\
    keys ps = {[ "management" ]}
                ∪ (if ProtocolPorts scenarioB !! "amqp" is Some _ then {[ "amqp" ]} else ∅) /\
    keys ps ⊆ {[ "amqp"; "management" ]} /\
    forall name, name <> "amqp" -> name <> "management" -> key name ps = None.
Proof.
  apply (protocols_names scenarioB).
  - apply scenarioB_nonempty.
  - apply scenarioB_wf.
Defined.

(** C9: with hostnames Build returns a record and no error. *)
Theorem Build_returns b :
  Hostnames b <> [] -> Builder_wf b -> exists out, Build b = Done (Ok out).
Proof.
  intros Hne Hwf. destruct (Build_record b Hne Hwf) as (h & hs & Hh & HB). eauto.
Qed.

Lemma Build_returns_witness : exists out, Build scenarioB = Done (Ok out).
Proof.
  apply (Build_returns scenarioB).
  - apply scenarioB_nonempty.
  - apply scenarioB_wf.
Defined.

(** C10: with an empty vhost the amqp descriptor has no "vhost" member,
    and the record itself has "vhost" with the empty string. *)
Theorem empty_vhost_omitted b port :
  Hostnames b <> [] -> Builder_wf b ->
  VHost b = "" -> ProtocolPorts b !! "amqp" = Some port ->
  exists out amqp, Build b = Done (Ok out) /\
    path ["protocols"; "amqp"] out = Some amqp /\
    key "vhost" amqp = None /\ ("vhost" ∉ keys amqp) /\
    key "vhost" out = Some (GString "").
Proof.
  intros Hne Hwf Hv Hp. destruct (Build_record b Hne Hwf) as (h & hs & Hh & HB).
  exists (binding_record b h), (protocol_record (amqpProtocol b h port)).
  destruct (binding_record_keys b h) as (_ & _ & _ & _ & _ & _ & _ & _ & _ & Hvh & _).
  destruct (protocol_record_keys (amqpProtocol b h port))
    as (_ & _ & Hvh' & _ & _ & _ & _ & _ & _ & _ & Hks).
  change (protocol.VHost (amqpProtocol b h port)) with (VHost b) in Hvh', Hks.
  change (protocol.Path (amqpProtocol b h port)) with EmptyString in Hks.
  rewrite Hv in Hvh, Hvh', Hks.
  split_and!; [ done | | done | | done ].
  - by rewrite (path_cons _ _ _ _ (key_protocols _ _)), path_one, (key_amqp _ _ port).
  - rewrite Hks. unfold protocol_names, omitempty. set_solver.
Qed.

Lemma empty_vhost_omitted_witness :
  exists out amqp, Build emptyVHost = Done (Ok out) /\
    path ["protocols"; "amqp"] out = Some amqp /\
    key "vhost" amqp = None /\ ("vhost" ∉ keys amqp) /\
    key "vhost" out = Some (GString "").
Proof.
  apply (empty_vhost_omitted emptyVHost 5672).
  - done.
  - apply emptyVHost_wf.
  - reflexivity.
  - apply lookup_singleton_eq.
Defined.

(** ** Field names (C8) *)

Lemma coerce_nonempty s : s <> "" -> coerce s <> "".
Proof.
  destruct s as [|c t]; [ done | ]. intros _.
  unfold coerce. cbn [String.length coerceLoop].
  destruct (byte c <? utf8.RuneSelf); [ done | ].
  pose proof (utf8_facts.DecodeRuneInString_decoded (String c t)) as Hd.
  destruct (utf8.DecodeRuneInString (String c t)) as [r size]. simpl in Hd.
  destruct (size =? 1)%nat eqn:E.
  - vm_compute (utf8.EncodeRune utf8.RuneError). simpl. done.
  - inversion Hd; subst; try done;
      match goal with H : String _ _ = String _ _ |- _ => injection H as <- <- end;
      simpl; done.
Qed.

Lemma omitempty_Some s g :
  omitempty s = Some g -> exists s', g = GString s' /\ s' <> "".
Proof.
  destruct s as [|c t]; [ done | ]. intros [= <-].
  eexists. split; [ done | ]. by apply coerce_nonempty.
Qed.

Lemma omitempty_is_Some s : is_Some (omitempty s) <-> s <> "".
Proof. destruct s; simpl; split; done. Qed.

(** The names of a descriptor, by its optional members. *)
Lemma descriptor_names (vhost path : option gval) :
  let ks : gset string :=
    protocol_names ∪ (if vhost is Some _ then {[ "vhost" ]} else ∅)
                   ∪ (if path is Some _ then {[ "path" ]} else ∅) in
  protocol_names ⊆ ks /\ ks ⊆ protocol_names ∪ {[ "vhost"; "path" ]} /\
  ("vhost" ∈ ks <-> is_Some vhost) /\ ("path" ∈ ks <-> is_Some path).
Proof.
  assert ("vhost" ∉ protocol_names) as Hnv by (unfold protocol_names; set_solver).
  assert ("path" ∉ protocol_names) as Hnp by (unfold protocol_names; set_solver).
  assert (forall A, is_Some (@None A) <-> False) as HN by (split; [ by intros [? ?] | done ]).
  assert (forall A (x : A), is_Some (Some x) <-> True) as HS by (split; [ done | by eexists ]).
  destruct vhost, path; simpl; rewrite ?HN, ?HS; clear HN HS;
    generalize dependent protocol_names; intros names ? ?; set_solver.
Qed.

(** C8: the record has the twelve names of the binding and no other; a
    descriptor has the eight required names, "vhost" only in the amqp
    descriptor of a non-empty vhost, "path" only in the management
    descriptor, and no other; an optional member that is there is a
    non-empty string. *)
Theorem record_field_names b :
  Hostnames b <> [] -> Builder_wf b ->
  exists out, Build b = Done (Ok out) /\
    keys out = binding_names /\
    forall name d, path ["protocols"; name] out = Some d ->
      protocol_names ⊆ keys d /\
      keys d ⊆ protocol_names ∪ {[ "vhost"; "path" ]} /\
      ("vhost" ∈ keys d <-> name = "amqp" /\ VHost b <> "") /\
      ("path" ∈ keys d <-> name = "management") /\
      forall opt g, opt = "vhost" \/ opt = "path" -> key opt d = Some g ->
        exists s, g = GString s /\ s <> "".
Proof.
  intros Hne Hwf. destruct (Build_record b Hne Hwf) as (h & hs & Hh & HB).
  exists (binding_record b h). split; [ done | ].
  destruct (binding_record_keys b h) as (_ & _ & _ & _ & _ & _ & _ & _ & _ & _ & _ & _ & Hks).
  split; [ done | ].
  intros name d. rewrite (path_cons _ _ _ _ (key_protocols _ _)), path_one.
  intros [[-> ->]|(port & -> & Hp & ->)]%descriptor_cases.
  - destruct (protocol_record_keys (mgmtProtocol b h))
      as (_ & _ & Hv & _ & _ & _ & _ & _ & _ & Hpa & Hk).
    destruct (descriptor_names (omitempty (protocol.VHost (mgmtProtocol b h)))
                (omitempty (protocol.Path (mgmtProtocol b h)))) as (H1 & H2 & H3 & H4).
    rewrite <- Hk in H1, H2, H3, H4. rewrite omitempty_is_Some in H3, H4.
    split_and!; [ done | done | | | ].
    + rewrite H3. split; [ done | by intros [? _] ].
    + rewrite H4. done.
    + intros opt g [-> | ->] Hg.
      * by rewrite Hv in Hg.
      * rewrite Hpa in Hg. by apply omitempty_Some in Hg.
  - destruct (protocol_record_keys (amqpProtocol b h port))
      as (_ & _ & Hv & _ & _ & _ & _ & _ & _ & Hpa & Hk).
    destruct (descriptor_names (omitempty (protocol.VHost (amqpProtocol b h port)))
                (omitempty (protocol.Path (amqpProtocol b h port)))) as (H1 & H2 & H3 & H4).
    rewrite <- Hk in H1, H2, H3, H4. rewrite omitempty_is_Some in H3, H4.
    split_and!; [ done | done | | | ].
    + rewrite H3. split; [ done | by intros [_ ?] ].
    + rewrite H4. done.
    + intros opt g [-> | ->] Hg.
      * rewrite Hv in Hg. by apply omitempty_Some in Hg.
      * by rewrite Hpa in Hg.
Qed.

Lemma record_field_names_witness :
  exists out, Build (scenarioA true) = Done (Ok out) /\
    keys out = binding_names /\
    forall name d, path ["protocols"; name] out = Some d ->
      protocol_names ⊆ keys d /\
      keys d ⊆ protocol_names ∪ {[ "vhost"; "path" ]} /\
      ("vhost" ∈ keys d <-> name = "amqp" /\ VHost (scenarioA true) <> "") /\
      ("path" ∈ keys d <-> name = "management") /\
      forall opt g, opt = "vhost" \/ opt = "path" -> key opt d = Some g ->
        exists s, g = GString s /\ s <> "".
Proof.
  apply (record_field_names (scenarioA true)).
  - apply scenarioA_nonempty.
  - apply scenarioA_wf.
Defined.

(** ** The round trip (C7) *)

Lemma gstring_valid s : utf8.ValidString s = true -> gstring s = GString s.
Proof. intros H. unfold gstring. by rewrite valid_facts.coerce_valid. Qed.

Lemma gstrings_valid l :
  Forall (fun s => utf8.ValidString s = true) l -> gstrings l = GSlice (GString <$> l).
Proof.
  intros H. unfold gstrings. f_equal. apply Forall_fmap_ext_1.
  eapply Forall_impl; [ exact H | ]. intros s Hs. by apply gstring_valid.
Qed.

Lemma same_string_valid s :
  utf8.ValidString s = true -> same_string s (Some (gstring s)).
Proof. intros H. unfold same_string. by rewrite gstring_valid. Qed.

Lemma same_strings_valid l :
  Forall (fun s => utf8.ValidString s = true) l -> same_strings l (Some (gstrings l)).
Proof. intros H. unfold same_strings. by rewrite gstrings_valid. Qed.

Lemma same_omitempty_valid s :
  utf8.ValidString s = true -> same_omitempty s (omitempty s).
Proof.
  intros H. destruct s as [|c t]; [ done | ].
  unfold omitempty, same_omitempty. by rewrite gstring_valid.
Qed.

Lemma same_int_exact i :
  - 2 ^ 53 <= i <= 2 ^ 53 -> same_int i (Some (generic (VInt i))).
Proof.
  intros Hi. destruct (float64_facts.float64_of_int_exact i Hi) as (f & Hf & Hback).
  unfold same_int. simpl. by rewrite Hf.
Qed.

Lemma same_protocol_record p :
  utf8.ValidString (protocol.Username p) = true ->
  utf8.ValidString (protocol.Password p) = true ->
  utf8.ValidString (protocol.VHost p) = true ->
  utf8.ValidString (protocol.Hostname p) = true ->
  Forall (fun s => utf8.ValidString s = true) (protocol.Hostnames p) ->
  utf8.ValidString (protocol.URI p) = true ->
  Forall (fun s => utf8.ValidString s = true) (protocol.URIs p) ->
  - 2 ^ 53 <= protocol.Port p <= 2 ^ 53 ->
  utf8.ValidString (protocol.Path p) = true ->
  same_protocol p (protocol_record p).
Proof.
  intros. unfold same_protocol.
  destruct (protocol_record_keys p)
    as (-> & -> & -> & -> & -> & -> & -> & -> & -> & -> & _).
  split_and!;
    auto using same_string_valid, same_strings_valid, same_omitempty_valid, same_int_exact.
  done.
Qed.

Section valid.
Variable b : Builder.
Hypothesis Hvalid : valid_strings b.

Ltac valid :=
repeat (apply valid_facts.ValidString_app; [ try done | ]);
try done; try apply valid_facts.ValidString_FormatInt.

Lemma valid_dashboardURL : utf8.ValidString (dashboardURL b) = true.
Proof. destruct Hvalid as (? & ? & ? & ? & ?). unfold dashboardURL. valid. Qed.

Lemma valid_httpapiuriForBinding : utf8.ValidString (httpapiuriForBinding b) = true.
Proof. destruct Hvalid as (? & ? & ? & ? & ?). unfold httpapiuriForBinding. valid. Qed.

Lemma valid_uriForBinding h :
utf8.ValidString h = true -> utf8.ValidString (uriForBinding b h) = true.
Proof. destruct Hvalid as (? & ? & ? & ? & ?). intros. unfold uriForBinding. valid. Qed.

Lemma valid_uriForAMQP h port :
utf8.ValidString h = true -> utf8.ValidString (uriForAMQP b h port) = true.
Proof. destruct Hvalid as (? & ? & ? & ? & ?). intros. unfold uriForAMQP. valid. Qed.

Lemma valid_uriForManagement h port :
utf8.ValidString h = true -> utf8.ValidString (uriForManagement b h port) = true.
Proof. destruct Hvalid as (? & ? & ? & ? & ?). intros. unfold uriForManagement. valid. Qed.

Lemma valid_map (f : string -> string) :
(forall h, utf8.ValidString h = true -> utf8.ValidString (f h) = true) ->
Forall (fun s => utf8.ValidString s = true) (f <$> Hostnames b).
Proof.
destruct Hvalid as (_ & Hh & _). intros Hf. apply Forall_fmap.
eapply Forall_impl; [ exact Hh | ]. intros s Hs. by apply Hf.
Qed.

Lemma same_protocol_amqp h hs port :
Hostnames b = h :: hs -> - 2 ^ 53 <= port <= 2 ^ 53 ->
same_protocol (amqpProtocol b h port) (protocol_record (amqpProtocol b h port)).
Proof.
intros Hh Hport. pose proof Hvalid as (? & Hhosts & ? & ? & ?).
assert (utf8.ValidString h = true) as Hvh.
{ rewrite Hh in Hhosts. by apply Forall_cons in Hhosts as [? _]. }
apply same_protocol_record; simpl; try done.
- by apply valid_uriForAMQP.
- apply (valid_map (fun h => uriForAMQP b h port)). intros. by apply valid_uriForAMQP.
Qed.

Lemma same_protocol_mgmt h hs :
Hostnames b = h :: hs ->
same_protocol (mgmtProtocol b h) (protocol_record (mgmtProtocol b h)).
Proof.
intros Hh. pose proof Hvalid as (? & Hhosts & ? & ? & ?).
assert (utf8.ValidString h = true) as Hvh.
{ rewrite Hh in Hhosts. by apply Forall_cons in Hhosts as [? _]. }
apply same_protocol_record; simpl; try done.
- by apply valid_uriForManagement.
- apply (valid_map (fun h => uriForManagement b h 15672)).
  intros. by apply valid_uriForManagement.
Qed.

Lemma dom_protocolsMap h :
dom (protocolsMap b h)
= {[ "management" ]} ∪ (if ProtocolPorts b !! "amqp" is Some _ then {[ "amqp" ]} else ∅).
Proof.
unfold protocolsMap, amqpEntry. rewrite dom_insert_L.
destruct (ProtocolPorts b !! "amqp"); by rewrite ?dom_singleton_L, ?dom_empty_L.
Qed.

Lemma protocolsMap_cases h name p :
protocolsMap b h !! name = Some p ->
(name = "management" /\ p = mgmtProtocol b h) \/
(exists port, name = "amqp" /\ ProtocolPorts b !! "amqp" = Some port /\
   p = amqpProtocol b h port).
Proof.
unfold protocolsMap, amqpEntry.
intros [[<- <-]|[Hn Hp]]%lookup_insert_Some; [ by left | right ].
destruct (ProtocolPorts b !! "amqp") as [port|]; [ | by rewrite lookup_empty in Hp ].
apply lookup_singleton_Some in Hp as [<- <-]. by exists port.
Qed.

Lemma same_binding_record h hs :
Hostnames b = h :: hs -> exact_port b ->
same_binding (theBinding b h) (binding_record b h).
Proof.
intros Hh Hport. pose proof Hvalid as (? & Hhosts & ? & ? & ?).
assert (utf8.ValidString h = true) as Hvh.
{ rewrite Hh in Hhosts. by apply Forall_cons in Hhosts as [? _]. }
unfold same_binding.
destruct (binding_record_keys b h)
  as (-> & -> & -> & -> & -> & -> & -> & -> & -> & -> & -> & -> & _).
simpl.
split_and!;
  try (apply same_string_valid); try (apply same_strings_valid); try done.
- apply valid_dashboardURL.
- apply valid_httpapiuriForBinding.
- apply Forall_singleton, valid_httpapiuriForBinding.
- by apply valid_uriForBinding.
- apply valid_map. intros. by apply valid_uriForBinding.
- destruct (protocols_record_keys b h) as (Ha & Hm & Hks).
  destruct (protocols_record b h) as [| | | | |ps] eqn:Hps; try done.
  exists ps. split; [ done | ]. simpl in Ha, Hm, Hks.
  split; [ by rewrite Hks, dom_protocolsMap | ].
  intros name p [[-> ->]|(port & -> & Hp & ->)]%protocolsMap_cases.
  + eexists. split; [ exact Hm | ]. by eapply same_protocol_mgmt.
  + eexists. split; [ by rewrite Ha, Hp | ].
    eapply same_protocol_amqp; [ done | by apply Hport ].
Qed.
End valid.

(** C7 (amended): when every string of the configuration is valid UTF-8
    and the amqp port is at most 2^53 in absolute value, the record that
    Build returns agrees with the binding it encoded in every field. *)
Theorem roundtrip_faithful_valid b :
  Hostnames b <> [] -> Builder_wf b -> valid_strings b -> exact_port b ->
  roundtrip_faithful b.
Proof.
  intros Hne Hwf Hvalid Hport.
  destruct (Build_record b Hne Hwf) as (h & hs & Hh & HB).
  exists (theBinding b h), (binding_record b h).
  split_and!; [ by apply (bind_Done b h hs) | done | by eapply same_binding_record ].
Qed.

Lemma scenarioA_valid tls : valid_strings (scenarioA tls).
Proof. unfold valid_strings. simpl. split_and!; try done. by apply Forall_singleton. Qed.

Lemma scenarioA_exact tls : exact_port (scenarioA tls).
Proof. intros port. rewrite scenarioA_amqp. intros [= <-]. lia. Qed.

Lemma roundtrip_faithful_valid_witness : roundtrip_faithful (scenarioA true).
Proof.
  apply roundtrip_faithful_valid.
  - apply scenarioA_nonempty.
  - apply scenarioA_wf.
  - apply scenarioA_valid.
  - apply scenarioA_exact.
Defined.

Lemma lossy_wf : Builder_wf lossy.
Proof.
  apply map_Forall_singleton. unfold strconv.int_range, strconv.IntSize. lia.
Qed.

(** What comes back on [lossy]: U+FFFD for the user name, 2^53 for the
    port 2^53 + 1. *)
Lemma lossy_username :
  coerce (Username lossy) = String (chr 0xEF) (String (chr 0xBF) (String (chr 0xBD) "")).
Proof. vm_compute. reflexivity. Qed.

Lemma lossy_port :
  as_int (generic (VInt 9007199254740993)) = Some 9007199254740992.
Proof. vm_compute. reflexivity. Qed.

(** C7 fails as stated: on [lossy] the user name and the amqp port that
    come back are not the ones that were encoded. *)
Lemma roundtrip_not_faithful : ~ roundtrip_faithful lossy.
Proof.
  intros (v & out & Hv & HB & Hsame).
  rewrite (Build_Done lossy "10.0.0.5" [] eq_refl lossy_wf) in HB.
  rewrite (bind_Done lossy "10.0.0.5" [] eq_refl) in Hv.
  injection Hv as <-. injection HB as <-.
  destruct Hsame as (_ & Hu & _).
  destruct (binding_record_keys lossy "10.0.0.5") as (_ & Hu' & _).
  revert Hu. rewrite Hu'. unfold same_string, gstring. rewrite lossy_username.
  change (binding.Username (theBinding lossy "10.0.0.5")) with (String (chr 0xFF) "").
  intros Hu. vm_compute in Hu. discriminate Hu.
Qed.

Lemma lossyPort_wf : Builder_wf lossyPort.
Proof.
  apply map_Forall_singleton. unfold strconv.int_range, strconv.IntSize. lia.
Qed.

(** Valid strings are not enough: the port 2^53 + 1 comes back as 2^53. *)
Lemma roundtrip_not_faithful_port : valid_strings lossyPort /\ ~ roundtrip_faithful lossyPort.
Proof.
  split; [ unfold valid_strings; simpl; split_and!; try done; by apply Forall_singleton | ].
  intros (v & out & Hv & HB & Hsame).
  rewrite (Build_Done lossyPort "10.0.0.5" [] eq_refl lossyPort_wf) in HB.
  rewrite (bind_Done lossyPort "10.0.0.5" [] eq_refl) in Hv.
  injection Hv as <-. injection HB as <-.
  destruct Hsame as (_ & _ & _ & _ & _ & _ & _ & _ & _ & _ & _ & ps & Hps & _ & Hall).
  rewrite key_protocols in Hps.
  assert (ProtocolPorts lossyPort !! "amqp" = Some 9007199254740993) as Hp
    by apply lookup_singleton_eq.
  destruct (Hall "amqp" (amqpProtocol lossyPort "10.0.0.5" 9007199254740993))
    as (d & Hd & Hsame).
  { simpl. unfold protocolsMap, amqpEntry. rewrite Hp.
    rewrite lookup_insert_ne by done. apply lookup_singleton_eq. }
  pose proof (key_amqp lossyPort "10.0.0.5" _ Hp) as Ha.
  apply (inj Some) in Hps. rewrite Hps in Ha. simpl in Ha. rewrite Hd in Ha.
  apply (inj Some) in Ha as ->.
  destruct Hsame as (_ & _ & _ & _ & _ & _ & _ & Hport & _).
  destruct (protocol_record_keys (amqpProtocol lossyPort "10.0.0.5" 9007199254740993))
    as (_ & _ & _ & _ & _ & _ & _ & Hport' & _).
  revert Hport. rewrite Hport'. unfold same_int.
  change (protocol.Port (amqpProtocol lossyPort "10.0.0.5" 9007199254740993))
    with 9007199254740993.
  change (Some (generic (VInt 9007199254740993)) ≫= as_int)
    with (as_int (generic (VInt 9007199254740993))).
  rewrite lossy_port. intros [=].
Qed.

(** * The rest of the package *)

(** ** The range over ProtocolPorts *)

Section range.
Variable b : Builder.

(** One turn of the loop of protocols(). *)
Let turn (acc : exec (gmap string protocol.t)) (entry : string * Z) :
    exec (gmap string protocol.t) :=
  ps ← acc;
  if decide (entry.1 = "amqp") then
    p ← addAMQPProtocol b entry.2 false;
    mret (<["amqp" := p]> ps)
  else mret ps.

Lemma exec_bind_ret {A} (m : exec A) : (a ← m; mret a) = m.
Proof. by destruct m. Qed.

Lemma turns_other entries acc :
  "amqp" ∉ entries.*1 -> foldl turn acc entries = acc.
Proof.
  revert acc. induction entries as [|[k port] entries IH]; intros acc Hk; [ done | ].
  apply not_elem_of_cons in Hk as [Hk Hks]. simpl in Hk.
  cbn [foldl]. rewrite IH by done. unfold turn. cbn [fst snd].
  destruct acc as [ps|e]; [ | done ]. simpl. by rewrite decide_False.
Qed.

Lemma turns_amqp entries acc port :
  NoDup entries.*1 -> ("amqp", port) ∈ entries ->
  foldl turn acc entries
  = (ps ← acc; p ← addAMQPProtocol b port false; mret (<["amqp" := p]> ps)).
Proof.
  intros Hnd Hin. apply list_elem_of_split in Hin as (l1 & l2 & ->).
  rewrite fmap_app, fmap_cons in Hnd. simpl in Hnd.
  apply NoDup_app in Hnd as (_ & Hl1 & Hnd). apply NoDup_cons in Hnd as [Hl2 _].
  rewrite foldl_app. cbn [foldl]. rewrite (turns_other l2) by done.
  rewrite (turns_other l1).
  - unfold turn. cbn [fst snd]. destruct acc as [ps|e]; [ | done ].
    unfold mbind, exec_bind. by rewrite decide_True.
  - intros Hin. apply (Hl1 _ Hin). by left.
Qed.

Lemma protocolsIn_protocolsOf entries :
  entries ≡ₚ map_to_list (ProtocolPorts b) ->
  protocolsIn b entries = protocolsOf b (ProtocolPorts b !! "amqp").
Proof.
  intros Hp. unfold protocolsIn, protocolsOf. f_equal.
  change (foldl turn (mret ∅) entries
          = match ProtocolPorts b !! "amqp" with
            | Some port => p ← addAMQPProtocol b port false; mret (<["amqp" := p]> ∅)
            | None => mret ∅
            end).
  destruct (ProtocolPorts b !! "amqp") as [port|] eqn:Ha.
  - rewrite (turns_amqp _ _ port); [ done | | ].
    + rewrite Hp. apply NoDup_fst_map_to_list.
    + rewrite Hp. by apply elem_of_map_to_list.
  - apply turns_other. rewrite Hp. intros Hin.
    apply list_elem_of_fmap in Hin as ([k port] & Hk & Hin). simpl in Hk. subst k.
    apply elem_of_map_to_list in Hin. congruence.
Qed.

Lemma protocols_protocolsIn :
  protocols b = protocolsIn b (rev (map_to_list (ProtocolPorts b))).
Proof.
  unfold protocols, protocolsIn. rewrite map_fold_foldr.
  f_equal. rewrite <- (rev_involutive (map_to_list (ProtocolPorts b))) at 1.
  rewrite fold_left_rev_right.
  generalize (rev (map_to_list (ProtocolPorts b))).
  generalize (mret ∅ : exec (gmap string protocol.t)).
  intros acc l. revert acc.
  induction l as [|[k port] l IH]; intros acc; [ done | ]. cbn [fold_left foldl]. apply IH.
Qed.

Lemma protocols_protocolsOf : protocols b = protocolsOf b (ProtocolPorts b !! "amqp").
Proof.
  rewrite protocols_protocolsIn. apply protocolsIn_protocolsOf.
  by rewrite <- Permutation_rev.
Qed.
End range.

(** X1: protocols() returns the same whatever the order in which the range
    loop meets the entries of ProtocolPorts. *)
Theorem protocols_any_order b entries :
  entries ≡ₚ map_to_list (ProtocolPorts b) -> protocolsIn b entries = protocols b.
Proof.
  intros Hp. by rewrite protocols_protocolsOf, (protocolsIn_protocolsOf b entries).
Qed.

Lemma scenarioB_entries :
  [("http", 15672); ("clustering", 25672); ("amqp", 5672)]
  ≡ₚ map_to_list (ProtocolPorts scenarioB).
Proof.
  symmetry.
  change (ProtocolPorts scenarioB)
    with (list_to_map [("amqp", 5672); ("clustering", 25672); ("http", 15672)]
          : gmap string Z).
  rewrite map_to_list_to_map.
  - apply (Permutation_rev [("amqp", 5672); ("clustering", 25672); ("http", 15672)]).
  - apply (bool_decide_unpack _). vm_compute. exact I.
Qed.

Lemma protocols_any_order_witness :
  protocolsIn scenarioB [("http", 15672); ("clustering", 25672); ("amqp", 5672)]
  = protocols scenarioB.
Proof. apply protocols_any_order. apply scenarioB_entries. Defined.

(** X2: of ProtocolPorts, Build reads the amqp entry alone: with any other
    ports that have the same amqp entry (or none as well) it returns the
    same, or panics the same. *)
Theorem Build_amqp_entry_only b ports :
  ports !! "amqp" = ProtocolPorts b !! "amqp" ->
  Build (withProtocolPorts b ports) = Build b.
Proof.
  intros Ha. unfold Build, bind. rewrite !protocols_protocolsOf.
  change (ProtocolPorts (withProtocolPorts b ports)) with ports. rewrite Ha.
  reflexivity.
Qed.

Lemma scenarioB_amqp : ProtocolPorts scenarioB !! "amqp" = Some 5672.
Proof. apply lookup_insert_eq. Qed.

Lemma Build_amqp_entry_only_witness :
  Build (withProtocolPorts scenarioB {[ "amqp" := 5672 ]}) = Build scenarioB.
Proof.
  apply Build_amqp_entry_only.
  rewrite scenarioB_amqp. apply lookup_singleton_eq.
Defined.

Lemma binding_names_cases k :
  k ∈ binding_names ->
  k = "dashboard_url" \/ k = "username" \/ k = "password" \/ k = "hostname" \/
  k = "hostnames" \/ k = "http_api_uri" \/ k = "http_api_uris" \/ k = "uri" \/
  k = "uris" \/ k = "vhost" \/ k = "ssl" \/ k = "protocols".
Proof. unfold binding_names. set_solver. Qed.

(** X3: the TLS flag of the configuration decides the record's ssl and
    nothing else of the record: no URI, no port and no descriptor changes
    with it. *)
Theorem TLS_only_ssl b tls :
  Hostnames b <> [] -> Builder_wf b ->
  exists out out', Build b = Done (Ok out) /\ Build (withTLS b tls) = Done (Ok out') /\
    key "ssl" out' = Some (GBool tls) /\
    forall k, k <> "ssl" -> key k out' = key k out.
Proof.
  intros Hne Hwf. destruct (Build_record b Hne Hwf) as (h & hs & Hh & HB).
  exists (binding_record b h), (binding_record (withTLS b tls) h).
  split; [ done | ].
  split; [ by apply (Build_Done (withTLS b tls) h hs) | ].
  destruct (binding_record_keys b h)
    as (H1 & H2 & H3 & H4 & H5 & H6 & H7 & H8 & H9 & H10 & H11 & H12 & Hks).
  destruct (binding_record_keys (withTLS b tls) h)
    as (H1' & H2' & H3' & H4' & H5' & H6' & H7' & H8' & H9' & H10' & H11' & H12' & Hks').
  split; [ exact H11' | ].
  intros k Hk. destruct (decide (k ∈ binding_names)) as [Hin|Hin].
  - apply binding_names_cases in Hin.
    destruct Hin as [->|[->|[->|[->|[->|[->|[->|[->|[->|[->|[->| ->]]]]]]]]]]];
      [ rewrite H1, H1' | rewrite H2, H2' | rewrite H3, H3'
      | rewrite H4, H4' | rewrite H5, H5' | rewrite H6, H6'
      | rewrite H7, H7' | rewrite H8, H8' | rewrite H9, H9'
      | rewrite H10, H10' | by destruct Hk | rewrite H12, H12' ];
      reflexivity.
  - rewrite (key_None k (binding_record b h)) by (rewrite Hks; exact Hin).
    rewrite (key_None k (binding_record (withTLS b tls) h)) by (rewrite Hks'; exact Hin).
    reflexivity.
Qed.

Lemma TLS_only_ssl_witness :
  exists out out', Build (scenarioA false) = Done (Ok out) /\
    Build (withTLS (scenarioA false) true) = Done (Ok out') /\
    key "ssl" out' = Some (GBool true) /\
    forall k, k <> "ssl" -> key k out' = key k out.
Proof.
  apply (TLS_only_ssl (scenarioA false) true).
  - apply scenarioA_nonempty.
  - apply scenarioA_wf.
Defined.

(** ** What is read back is valid UTF-8 *)

Lemma ValidString_rune s r n :
  utf8.DecodeRuneInString s = (r, n) -> (1 < n)%nat ->
  utf8.ValidString (stake n s) = true.
Proof.
  intros Hd Hn.
  destruct (utf8_facts.Decode_multibyte s r n Hd Hn)
    as (_ & Hlen & Hdec & Hdrop & _ & c & t & Hst & Hc).
  specialize (Hdec ""). specialize (Hdrop ""). rewrite app_nil_r' in Hdec, Hdrop.
  unfold utf8.ValidString. rewrite Hlen. rewrite Hst in *.
  destruct n as [|n]; [ lia | ]. cbn [utf8.validLoop].
  replace (byte c <? utf8.RuneSelf) with false
    by (symmetry; apply Z.ltb_ge; unfold utf8.RuneSelf; lia).
  rewrite Hdec, Hdrop.
  replace (S n =? 1)%nat with false by (symmetry; apply Nat.eqb_neq; lia).
  by destruct n.
Qed.

Lemma coerceLoop_is_valid n : forall s, utf8.ValidString (coerceLoop n s) = true.
Proof.
  induction n as [|n IH]; intros [|c t]; try done.
  cbn [coerceLoop]. destruct (byte c <? utf8.RuneSelf) eqn:Hc.
  - apply (valid_facts.ValidString_app (String c "")); [ | apply IH ].
    unfold utf8.ValidString. simpl. by rewrite Hc.
  - destruct (utf8.DecodeRuneInString (String c t)) as [r size] eqn:Hd.
    apply Z.ltb_ge in Hc. unfold utf8.RuneSelf in Hc.
    destruct (size =? 1)%nat eqn:Hs.
    + apply valid_facts.ValidString_app; [ by vm_compute | apply IH ].
    + apply Nat.eqb_neq in Hs.
      destruct (utf8_facts.Decode_nonascii _ _ _ _ Hc Hd) as [[-> _]|Hsize]; [ done | ].
      apply valid_facts.ValidString_app; [ | apply IH ].
      by apply (ValidString_rune _ r).
Qed.

Lemma coerce_is_valid s : utf8.ValidString (coerce s) = true.
Proof. apply coerceLoop_is_valid. Qed.

Lemma valid_gstring s : valid_member (Some (gstring s)).
Proof. apply coerce_is_valid. Qed.

Lemma valid_gstrings l : valid_member (Some (gstrings l)).
Proof.
  unfold gstrings. simpl. apply Forall_fmap, Forall_true. intros s. apply coerce_is_valid.
Qed.

Lemma valid_omitempty s : valid_member (omitempty s).
Proof. destruct s; [ done | apply valid_gstring ]. Qed.

Lemma valid_int i : valid_member (Some (generic (VInt i))).
Proof. simpl. by destruct (strconv.float64_of_int i). Qed.

Lemma protocol_names_cases k :
  k ∈ protocol_names ∪ {[ "vhost"; "path" ]} ->
  k = "username" \/ k = "password" \/ k = "vhost" \/ k = "host" \/ k = "hosts" \/
  k = "uri" \/ k = "uris" \/ k = "port" \/ k = "ssl" \/ k = "path".
Proof. unfold protocol_names. set_solver. Qed.

Lemma valid_protocol_record p k : valid_member (key k (protocol_record p)).
Proof.
  destruct (protocol_record_keys p)
    as (H1 & H2 & H3 & H4 & H5 & H6 & H7 & H8 & H9 & H10 & Hks).
  destruct (descriptor_names (omitempty (protocol.VHost p)) (omitempty (protocol.Path p)))
    as (_ & Hsub & _).
  rewrite <- Hks in Hsub.
  destruct (decide (k ∈ keys (protocol_record p))) as [Hin|Hin].
  - apply Hsub, protocol_names_cases in Hin.
    destruct Hin as [->|[->|[->|[->|[->|[->|[->|[->|[->| ->]]]]]]]]];
      [ rewrite H1 | rewrite H2 | rewrite H3 | rewrite H4 | rewrite H5
      | rewrite H6 | rewrite H7 | rewrite H8 | rewrite H9 | rewrite H10 ];
      first [ apply valid_gstring | apply valid_gstrings | apply valid_omitempty
            | apply valid_int | exact I ].
  - by rewrite (key_None _ _ Hin).
Qed.

(** X4: whatever bytes the configuration holds, every string of the record
    that Build returns, and of each of its descriptors, is valid UTF-8
    (json.Marshal writes U+FFFD for a byte that is not). *)
Theorem Build_strings_valid b :
  Hostnames b <> [] -> Builder_wf b ->
  exists out, Build b = Done (Ok out) /\
    (forall k, valid_member (key k out)) /\
    forall name d, path ["protocols"; name] out = Some d ->
      forall k, valid_member (key k d).
Proof.
  intros Hne Hwf. destruct (Build_record b Hne Hwf) as (h & hs & Hh & HB).
  exists (binding_record b h). split; [ exact HB | ]. split.
  - intros k.
    destruct (binding_record_keys b h)
      as (H1 & H2 & H3 & H4 & H5 & H6 & H7 & H8 & H9 & H10 & H11 & H12 & Hks).
    destruct (decide (k ∈ binding_names)) as [Hin|Hin].
    + apply binding_names_cases in Hin.
      destruct Hin as [->|[->|[->|[->|[->|[->|[->|[->|[->|[->|[->| ->]]]]]]]]]]];
        [ rewrite H1 | rewrite H2 | rewrite H3 | rewrite H4 | rewrite H5 | rewrite H6
        | rewrite H7 | rewrite H8 | rewrite H9 | rewrite H10 | rewrite H11 | rewrite H12 ];
        first [ apply valid_gstring | apply valid_gstrings | exact I ].
    + rewrite (key_None k (binding_record b h)) by (rewrite Hks; exact Hin). exact I.
  - intros name d. rewrite (path_cons _ _ _ _ (key_protocols _ _)), path_one.
    intros [[-> ->]|(port & -> & Hp & ->)]%descriptor_cases k;
      apply valid_protocol_record.
Qed.

Lemma Build_strings_valid_witness :
  exists out, Build lossy = Done (Ok out) /\
    (forall k, valid_member (key k out)) /\
    forall name d, path ["protocols"; name] out = Some d ->
      forall k, valid_member (key k d).
Proof.
  apply (Build_strings_valid lossy).
  - done.
  - apply lossy_wf.
Defined.

(** ** The URIs, written out *)

Lemma valid_hostname b h hs :
  valid_strings b -> Hostnames b = h :: hs -> utf8.ValidString h = true.
Proof.
  intros (_ & Hhosts & _) Hh. rewrite Hh in Hhosts. by apply Forall_cons in Hhosts as [? _].
Qed.

(** X5: with valid UTF-8 in the configuration, the record has the
    dashboard URL http://{MgmtDomain}/#/login/{user}/{password}, the uri
    amqp://{user}:{password}@{host}/{vhost} without a port, the management
    uri http://{user}:{password}@{host}:15672/api/, and the amqp uri
    amqp://{user}:{password}@{host}:{port}/{vhost} with the port in decimal;
    {host} is the first hostname. *)
Theorem uri_formats b :
  Hostnames b <> [] -> Builder_wf b -> valid_strings b ->
  exists out h, Build b = Done (Ok out) /\ Hostnames b !! 0%nat = Some h /\
    key "dashboard_url" out
      = Some (GString ("http://" +:+ MgmtDomain b +:+ "/#/login/"
                         +:+ Username b +:+ "/" +:+ Password b)) /\
    key "uri" out
      = Some (GString ("amqp://" +:+ Username b +:+ ":" +:+ Password b +:+ "@"
                         +:+ h +:+ "/" +:+ VHost b)) /\
    path ["protocols"; "management"; "uri"] out
      = Some (GString ("http://" +:+ Username b +:+ ":" +:+ Password b +:+ "@"
                         +:+ h +:+ ":15672/api/")) /\
    forall port, ProtocolPorts b !! "amqp" = Some port ->
      path ["protocols"; "amqp"; "uri"] out
      = Some (GString ("amqp://" +:+ Username b +:+ ":" +:+ Password b +:+ "@"
                         +:+ h +:+ ":" +:+ strconv.FormatInt port +:+ "/" +:+ VHost b)).
Proof.
  intros Hne Hwf Hvalid. destruct (Build_record b Hne Hwf) as (h & hs & Hh & HB).
  pose proof (valid_hostname b h hs Hvalid Hh) as Hvh.
  exists (binding_record b h), h. split; [ exact HB | ].
  split; [ by rewrite Hh | ].
  destruct (binding_record_keys b h) as (Hd & _ & _ & _ & _ & _ & _ & Hu & _).
  split_and!.
  - rewrite Hd, (gstring_valid _ (valid_dashboardURL b Hvalid)). reflexivity.
  - rewrite Hu, (gstring_valid _ (valid_uriForBinding b Hvalid h Hvh)). reflexivity.
  - destruct (protocol_record_keys (mgmtProtocol b h)) as (_ & _ & _ & _ & _ & Hm & _).
    rewrite (path_cons _ _ _ _ (key_protocols _ _)),
      (path_cons _ _ _ _ (key_management _ _)), path_one, Hm.
    change (protocol.URI (mgmtProtocol b h)) with (uriForManagement b h 15672).
    rewrite (gstring_valid _ (valid_uriForManagement b Hvalid h 15672 Hvh)). reflexivity.
  - intros port Hp.
    destruct (protocol_record_keys (amqpProtocol b h port)) as (_ & _ & _ & _ & _ & Ha & _).
    rewrite (path_cons _ _ _ _ (key_protocols _ _)),
      (path_cons _ _ _ _ (key_amqp _ _ port Hp)), path_one, Ha.
    change (protocol.URI (amqpProtocol b h port)) with (uriForAMQP b h port).
    rewrite (gstring_valid _ (valid_uriForAMQP b Hvalid h port Hvh)). reflexivity.
Qed.

Lemma scenarioB_valid : valid_strings scenarioB.
Proof.
  unfold valid_strings. simpl. split_and!; try done.
  by repeat (apply Forall_cons; split; [ done | ]).
Qed.

Lemma uri_formats_witness :
  exists out h, Build scenarioB = Done (Ok out) /\ Hostnames scenarioB !! 0%nat = Some h /\
    key "dashboard_url" out
      = Some (GString ("http://" +:+ MgmtDomain scenarioB +:+ "/#/login/"
                         +:+ Username scenarioB +:+ "/" +:+ Password scenarioB)) /\
    key "uri" out
      = Some (GString ("amqp://" +:+ Username scenarioB +:+ ":" +:+ Password scenarioB
                         +:+ "@" +:+ h +:+ "/" +:+ VHost scenarioB)) /\
    path ["protocols"; "management"; "uri"] out
      = Some (GString ("http://" +:+ Username scenarioB +:+ ":" +:+ Password scenarioB
                         +:+ "@" +:+ h +:+ ":15672/api/")) /\
    forall port, ProtocolPorts scenarioB !! "amqp" = Some port ->
      path ["protocols"; "amqp"; "uri"] out
      = Some (GString ("amqp://" +:+ Username scenarioB +:+ ":" +:+ Password scenarioB
                         +:+ "@" +:+ h +:+ ":" +:+ strconv.FormatInt port
                         +:+ "/" +:+ VHost scenarioB)).
Proof.
  apply (uri_formats scenarioB).
  - apply scenarioB_nonempty.
  - apply scenarioB_wf.
  - apply scenarioB_valid.
Defined.

(** X6: http_api_uri is http://{user}:{password}@{MgmtDomain}/api/, and
    http_api_uris holds this one URI however many hostnames there are. *)
Theorem http_api_uris_single b :
  Hostnames b <> [] -> Builder_wf b -> valid_strings b ->
  exists out uri, Build b = Done (Ok out) /\
    uri = GString ("http://" +:+ Username b +:+ ":" +:+ Password b +:+ "@"
                     +:+ MgmtDomain b +:+ "/api/") /\
    key "http_api_uri" out = Some uri /\
    key "http_api_uris" out = Some (GSlice [uri]).
Proof.
  intros Hne Hwf Hvalid. destruct (Build_record b Hne Hwf) as (h & hs & Hh & HB).
  exists (binding_record b h). eexists. split; [ exact HB | ]. split; [ reflexivity | ].
  destruct (binding_record_keys b h) as (_ & _ & _ & _ & _ & H1 & H2 & _).
  rewrite H1, H2. unfold gstrings. cbn [fmap list_fmap].
  rewrite (gstring_valid _ (valid_httpapiuriForBinding b Hvalid)). done.
Qed.

Lemma http_api_uris_single_witness :
  exists out uri, Build scenarioB = Done (Ok out) /\
    uri = GString ("http://" +:+ Username scenarioB +:+ ":" +:+ Password scenarioB +:+ "@"
                     +:+ MgmtDomain scenarioB +:+ "/api/") /\
    key "http_api_uri" out = Some uri /\
    key "http_api_uris" out = Some (GSlice [uri]).
Proof.
  apply (http_api_uris_single scenarioB).
  - apply scenarioB_nonempty.
  - apply scenarioB_wf.
  - apply scenarioB_valid.
Defined.

(** ** Bind *)

Lemma credsBuilder_wf broker vhost serviceIP :
  Builder_wf (credsBuilder broker vhost serviceIP).
Proof.
  unfold Builder_wf, credsBuilder; simpl.
  repeat (apply map_Forall_insert_2; [ unfold strconv.int_range, strconv.IntSize; lia | ]).
  apply map_Forall_empty.
Qed.

Lemma credsBuilder_amqp broker vhost serviceIP :
  ProtocolPorts (credsBuilder broker vhost serviceIP) !! "amqp" = Some 5672.
Proof. apply lookup_insert_eq. Qed.

Lemma generic_5672 : as_int (generic (VInt 5672)) = Some 5672.
Proof. vm_compute. reflexivity. Qed.

Section Bind_facts.
Variable restConfig : Type.
Variable clientsetConfig : k8s.result restConfig.
Variable NewForConfig : restConfig -> k8s.result k8s.Clientset.
Variables (Ctx BindDetails : Type).
Variable broker : RabbitMQServiceBroker.
Variables (ctx : Ctx) (instanceID bindingID : string) (details : BindDetails).
Variable asyncAllowed : bool.

Lemma Bind_client_failed err :
  createKubernetesClient restConfig clientsetConfig NewForConfig = k8s.failed err ->
  Bind restConfig clientsetConfig NewForConfig Ctx BindDetails
    broker ctx instanceID bindingID details asyncAllowed
  = Done (zeroBinding, Some (Errorf ("Failed to create kubernetes client: " +:+ err))).
Proof. intros H. unfold Bind. by rewrite H. Qed.

Lemma Bind_service_failed client err :
  createKubernetesClient restConfig clientsetConfig NewForConfig = k8s.ok client ->
  k8s.Get client "rabbitmq-for-kubernetes" ("p-" +:+ instanceID +:+ "-rabbitmq")
    = k8s.failed err ->
  Bind restConfig clientsetConfig NewForConfig Ctx BindDetails
    broker ctx instanceID bindingID details asyncAllowed
  = Done (zeroBinding, Some (Errorf ("Failed to retrieve service: " +:+ err))).
Proof. intros H1 H2. unfold Bind. by rewrite H1, H2. Qed.

Lemma Bind_Done client service :
  createKubernetesClient restConfig clientsetConfig NewForConfig = k8s.ok client ->
  k8s.Get client "rabbitmq-for-kubernetes" ("p-" +:+ instanceID +:+ "-rabbitmq")
    = k8s.ok service ->
  Bind restConfig clientsetConfig NewForConfig Ctx BindDetails
    broker ctx instanceID bindingID details asyncAllowed
  = Done ({| Credentials :=
               binding_record (credsBuilder broker "%2f" (firstIP service))
                 (firstIP service) |}, None).
Proof.
  intros H1 H2. unfold Bind. rewrite H1, H2.
  assert ((if (0 <? length (k8s.Ingress service))%nat
           then ingress ← index (k8s.Ingress service) 0; mret (k8s.IP ingress)
           else mret "") = Done (firstIP service)) as ->.
  { unfold firstIP. by destruct (k8s.Ingress service). }
  unfold mbind at 1. unfold exec_bind at 1.
  rewrite (Build_Done (credsBuilder broker "%2f" (firstIP service)) (firstIP service) []
             eq_refl (credsBuilder_wf _ _ _)).
  reflexivity.
Qed.
End Bind_facts.

(** X7: Bind never panics, and it returns an error exactly when one of its
    two calls to the cluster does: the client is not made, or the service
    p-{instanceID}-rabbitmq of the namespace rabbitmq-for-kubernetes is not
    retrieved.  Build never fails it.  With an error comes the zero
    Binding. *)
Theorem Bind_fails_with_the_cluster (restConfig : Type)
    (clientsetConfig : k8s.result restConfig)
    (NewForConfig : restConfig -> k8s.result k8s.Clientset)
    (Ctx BindDetails : Type) (broker : RabbitMQServiceBroker) (ctx : Ctx)
    (instanceID bindingID : string) (details : BindDetails) (asyncAllowed : bool) :
  exists binding err,
    Bind restConfig clientsetConfig NewForConfig Ctx BindDetails
      broker ctx instanceID bindingID details asyncAllowed = Done (binding, err) /\
    (err = None <->
     exists client service,
       createKubernetesClient restConfig clientsetConfig NewForConfig = k8s.ok client /\
       k8s.Get client "rabbitmq-for-kubernetes" ("p-" +:+ instanceID +:+ "-rabbitmq")
         = k8s.ok service) /\
    (err <> None -> binding = zeroBinding).
Proof.
  destruct (createKubernetesClient restConfig clientsetConfig NewForConfig)
    as [client|err] eqn:Hc.
  - destruct (k8s.Get client "rabbitmq-for-kubernetes" ("p-" +:+ instanceID +:+ "-rabbitmq"))
      as [service|err] eqn:Hs.
    + eexists _, _. split; [ by apply (Bind_Done _ _ _ _ _ _ _ _ _ _ _ client service) | ].
      split; [ | done ]. split; [ | done ]. intros _. by exists client, service.
    + eexists _, _. split; [ by apply (Bind_service_failed _ _ _ _ _ _ _ _ _ _ _ client err) | ].
      split; [ | done ]. split; [ done | ].
      intros (client' & service & [= <-] & Hs'). rewrite Hs in Hs'. discriminate Hs'.
  - eexists _, _. split; [ by apply Bind_client_failed | ].
    split; [ | done ]. split; [ done | ]. by intros (client' & service & [=] & _).
Qed.

(** X8: when the cluster answers, the credentials of Bind are those of one
    hostname, the IP of the first ingress of the service (the empty string
    when the service has no ingress): the vhost is %2f, the user, the
    password and ssl are the broker's, and of the three ports Bind names
    only amqp has a descriptor, with port 5672, next to management. *)
Theorem Bind_credentials (restConfig : Type)
    (clientsetConfig : k8s.result restConfig)
    (NewForConfig : restConfig -> k8s.result k8s.Clientset)
    (Ctx BindDetails : Type) (broker : RabbitMQServiceBroker) (ctx : Ctx)
    (instanceID bindingID : string) (details : BindDetails) (asyncAllowed : bool)
    (client : k8s.Clientset) (service : k8s.Service) :
  createKubernetesClient restConfig clientsetConfig NewForConfig = k8s.ok client ->
  k8s.Get client "rabbitmq-for-kubernetes" ("p-" +:+ instanceID +:+ "-rabbitmq")
    = k8s.ok service ->
  exists credentials ps,
    Bind restConfig clientsetConfig NewForConfig Ctx BindDetails
      broker ctx instanceID bindingID details asyncAllowed
    = Done ({| Credentials := credentials |}, None) /\
    key "hostname" credentials = Some (gstring (firstIP service)) /\
    key "hostnames" credentials = Some (gstrings [firstIP service]) /\
    key "vhost" credentials = Some (GString "%2f") /\
    key "username" credentials = Some (gstring (Administrator_Username broker)) /\
    key "password" credentials = Some (gstring (Administrator_Password broker)) /\
    key "ssl" credentials = Some (GBool (RabbitMQ_TLS broker)) /\
    key "protocols" credentials = Some ps /\
    keys ps = {[ "amqp"; "management" ]} /\
    path ["amqp"; "port"] ps ≫= as_int = Some 5672 /\
    path ["management"; "port"] ps ≫= as_int = Some 15672.
Proof.
  intros Hc Hs. set (ip := firstIP service). set (b := credsBuilder broker "%2f" ip).
  exists (binding_record b ip), (protocols_record b ip).
  split; [ by apply (Bind_Done _ _ _ _ _ _ _ _ _ _ _ client service) | ].
  destruct (binding_record_keys b ip)
    as (_ & Hu & Hp & Hh & Hhs & _ & _ & _ & _ & Hv & Hssl & Hps & _).
  destruct (protocols_record_keys b ip) as (_ & _ & Hks).
  destruct (protocol_record_keys (amqpProtocol b ip 5672))
    as (_ & _ & _ & _ & _ & _ & _ & Hpa & _).
  destruct (protocol_record_keys (mgmtProtocol b ip))
    as (_ & _ & _ & _ & _ & _ & _ & Hpm & _).
  split_and!.
  - exact Hh.
  - exact Hhs.
  - rewrite Hv. reflexivity.
  - exact Hu.
  - exact Hp.
  - exact Hssl.
  - exact Hps.
  - rewrite Hks. unfold b. rewrite credsBuilder_amqp.
    apply set_eq. intros k. rewrite !elem_of_union, !elem_of_singleton. tauto.
  - rewrite (path_cons _ _ _ _ (key_amqp b ip 5672 (credsBuilder_amqp _ _ _))), path_one, Hpa.
    exact generic_5672.
  - rewrite (path_cons _ _ _ _ (key_management b ip)), path_one, Hpm.
    exact generic_15672.
Qed.

Lemma Bind_credentials_witness :
  exists credentials ps,
    Bind unit (k8s.ok tt)
      (fun _ => k8s.ok (cluster1234 [ {| k8s.IP := "10.0.0.5"; k8s.Hostname := "" |};
                                      {| k8s.IP := "10.0.0.6"; k8s.Hostname := "" |} ]))
      unit unit broker1234 tt "1234" "b" tt false
    = Done ({| Credentials := credentials |}, None) /\
    key "hostname" credentials = Some (gstring "10.0.0.5") /\
    key "hostnames" credentials = Some (gstrings ["10.0.0.5"]) /\
    key "vhost" credentials = Some (GString "%2f") /\
    key "username" credentials = Some (gstring "u") /\
    key "password" credentials = Some (gstring "p") /\
    key "ssl" credentials = Some (GBool true) /\
    key "protocols" credentials = Some ps /\
    keys ps = {[ "amqp"; "management" ]} /\
    path ["amqp"; "port"] ps ≫= as_int = Some 5672 /\
    path ["management"; "port"] ps ≫= as_int = Some 15672.
Proof.
  apply (Bind_credentials unit (k8s.ok tt) _ unit unit broker1234 tt "1234" "b" tt false
           (cluster1234 [ {| k8s.IP := "10.0.0.5"; k8s.Hostname := "" |};
                          {| k8s.IP := "10.0.0.6"; k8s.Hostname := "" |} ])
           {| k8s.Ingress := [ {| k8s.IP := "10.0.0.5"; k8s.Hostname := "" |};
                               {| k8s.IP := "10.0.0.6"; k8s.Hostname := "" |} ] |}).
  - reflexivity.
  - reflexivity.
Defined.

(** X9: a service without ingress does not stop Bind: the one hostname of
    the credentials is the empty string, and the URIs are made with it: the
    uri is amqp://{user}:{password}@/%2f and the dashboard URL starts
    http://:15672/. *)
Theorem Bind_without_ingress (restConfig : Type)
    (clientsetConfig : k8s.result restConfig)
    (NewForConfig : restConfig -> k8s.result k8s.Clientset)
    (Ctx BindDetails : Type) (broker : RabbitMQServiceBroker) (ctx : Ctx)
    (instanceID bindingID : string) (details : BindDetails) (asyncAllowed : bool)
    (client : k8s.Clientset) (service : k8s.Service) :
  createKubernetesClient restConfig clientsetConfig NewForConfig = k8s.ok client ->
  k8s.Get client "rabbitmq-for-kubernetes" ("p-" +:+ instanceID +:+ "-rabbitmq")
    = k8s.ok service ->
  k8s.Ingress service = [] ->
  exists credentials,
    Bind restConfig clientsetConfig NewForConfig Ctx BindDetails
      broker ctx instanceID bindingID details asyncAllowed
    = Done ({| Credentials := credentials |}, None) /\
    key "hostname" credentials = Some (GString "") /\
    key "hostnames" credentials = Some (GSlice [GString ""]) /\
    key "uri" credentials
      = Some (gstring ("amqp://" +:+ Administrator_Username broker +:+ ":"
                         +:+ Administrator_Password broker +:+ "@/%2f")) /\
    key "dashboard_url" credentials
      = Some (gstring ("http://:15672/#/login/" +:+ Administrator_Username broker
                         +:+ "/" +:+ Administrator_Password broker)).
Proof.
  intros Hc Hs Hi.
  assert (firstIP service = "") as Hip by (unfold firstIP; by rewrite Hi).
  exists (binding_record (credsBuilder broker "%2f" "") "").
  split.
  { pose proof (Bind_Done restConfig clientsetConfig NewForConfig Ctx BindDetails broker ctx
                  instanceID bindingID details asyncAllowed client service Hc Hs) as HB.
    rewrite Hip in HB. exact HB. }
  destruct (binding_record_keys (credsBuilder broker "%2f" "") "")
    as (Hd & _ & _ & Hh & Hhs & _ & _ & Hu & _).
  split_and!.
  - rewrite Hh. apply (f_equal Some), (gstring_valid "" eq_refl).
  - rewrite Hhs. change (Some (GSlice [gstring ""]) = Some (GSlice [GString ""])).
    by rewrite (gstring_valid "" eq_refl).
  - rewrite Hu. apply (f_equal (fun s => Some (gstring s))). reflexivity.
  - rewrite Hd. apply (f_equal (fun s => Some (gstring s))). reflexivity.
Qed.

Lemma Bind_without_ingress_witness :
  exists credentials,
    Bind unit (k8s.ok tt) (fun _ => k8s.ok (cluster1234 [])) unit unit
      broker1234 tt "1234" "b" tt false
    = Done ({| Credentials := credentials |}, None) /\
    key "hostname" credentials = Some (GString "") /\
    key "hostnames" credentials = Some (GSlice [GString ""]) /\
    key "uri" credentials = Some (gstring ("amqp://" +:+ "u" +:+ ":" +:+ "p" +:+ "@/%2f")) /\
    key "dashboard_url" credentials
      = Some (gstring ("http://:15672/#/login/" +:+ "u" +:+ "/" +:+ "p")).
Proof.
  apply (Bind_without_ingress unit (k8s.ok tt) _ unit unit broker1234 tt "1234" "b" tt false
           (cluster1234 []) {| k8s.Ingress := [] |}).
  - reflexivity.
  - reflexivity.
  - reflexivity.
Defined.

(** ** The functions of protocols(), without hostnames *)

Lemma addMgmtProtocol_Panic b :
  Hostnames b = [] -> addMgmtProtocol b = Panic IndexOutOfRange.
Proof. intros H. unfold addMgmtProtocol, index. by rewrite H. Qed.

Lemma addAMQPProtocol_Panic b port tls :
  Hostnames b = [] -> addAMQPProtocol b port tls = Panic IndexOutOfRange.
Proof. intros H. unfold addAMQPProtocol, index. by rewrite H. Qed.

(** X10: protocols(), addAMQPProtocol and addMgmtProtocol index
    b.Hostnames[0] themselves: each of them panics exactly when the
    configuration has no hostname, whatever ProtocolPorts holds. *)
Theorem protocols_panic_iff b :
  ((exists e, protocols b = Panic e) <-> Hostnames b = []) /\
  ((exists e, addMgmtProtocol b = Panic e) <-> Hostnames b = []) /\
  (forall port tls, (exists e, addAMQPProtocol b port tls = Panic e) <-> Hostnames b = []).
Proof.
  destruct (Hostnames b) as [|h hs] eqn:Hh.
  - split_and!; [ | | intros port tls ]; (split; [ done | intros _ ]);
      exists IndexOutOfRange.
    + rewrite protocols_protocolsOf. unfold protocolsOf.
      rewrite (addMgmtProtocol_Panic b Hh).
      destruct (ProtocolPorts b !! "amqp"); [ | done ].
      by rewrite (addAMQPProtocol_Panic b _ _ Hh).
    + by apply addMgmtProtocol_Panic.
    + by apply addAMQPProtocol_Panic.
  - split_and!; [ | | intros port tls ]; (split; [ intros [e He] | done ]).
    + by rewrite (protocols_Done b h hs Hh) in He.
    + by rewrite (addMgmtProtocol_Done b h hs Hh) in He.
    + unfold addAMQPProtocol, index in He. rewrite Hh in He. discriminate He.
Qed.

(** ** The range loops over the hostnames *)

(** X11: urisForBinding, urisForAMQP and urisForManagement return one URI
    for each hostname, in the order of the hostnames, and the nil slice when
    there is none: unlike their callers they never index Hostnames. *)
Theorem uris_loops b port :
  urisForBinding b = uriForBinding b <$> Hostnames b /\
  urisForAMQP b port = (fun hostname => uriForAMQP b hostname port) <$> Hostnames b /\
  urisForManagement b port
    = (fun hostname => uriForManagement b hostname port) <$> Hostnames b /\
  (Hostnames b = [] ->
   urisForBinding b = [] /\ urisForAMQP b port = [] /\ urisForManagement b port = []).
Proof.
  rewrite urisForBinding_map, urisForAMQP_map, urisForManagement_map.
  split_and!; try reflexivity. by intros ->.
Qed.
